(** * imu_csv.py: the Sense HAT motion logger, embedded and verified

    The script [imu_csv.py] prompts for an operator name and a capture mode,
    then loops forever: either it switches the mode (when the operator has
    typed something) or it shows the mode's LED pattern, reads the sensor
    and appends one CSV row.  A SIGINT handler clears the LEDs and exits.

    Everything the script touches is outside of it (terminal, clock, Sense
    HAT, log file), so the embedding threads an explicit [world] through a
    small outcome monad.  The model of the environment is the following.

    - Standard input is an interactive terminal in canonical mode: the
      kernel hands input over one complete line at a time.  [tty_queued]
      holds the lines already typed and not yet read from the descriptor
      (this is what [select.select] looks at), [tty_later] the lines the
      operator will type in the future, in order.  A read that finds the
      queue empty waits for the next line of [tty_later]; when there is
      none it waits forever ([Blocked]).  End-of-file is not modelled.
    - [sys.stdin] is a buffered text stream.  A [read(1)] that finds its
      buffer empty fetches one whole line from the descriptor, returns its
      first character and keeps the remainder in [stdin_buf]; [readline]
      serves from that buffer first.  [select.select] polls the descriptor
      and cannot see [stdin_buf].  The builtin [input] of an interactive
      session reads its line from the terminal directly.
    - Clock readings and sensor readings are inputs, supplied per loop
      iteration by a [tick].  Python floats are modelled by rationals and
      the one subtraction the script performs is exact.
    - Whether [open] can create a path is decided by the file system,
      which is part of the world: [open_error] gives the exception that
      [open(path, 'w')] raises there, if any.
    - SIGINT is handled by the main thread wherever it is.  When it is
      inside a write on [sys.stdout], that stream refuses the call the
      handler makes on it.
    - Rows of the CSV file are kept as lists of cells; quoting and line
      endings of the [csv] module are not modelled. *)

From Stdlib Require Import List String Ascii Bool Arith ZArith QArith Lia Lqa
  Sorted.
Import ListNotations.

Close Scope Q_scope.
Open Scope bool_scope.
Open Scope string_scope.

(** ** Strings as the script uses them *)

Definition newline : ascii := "010"%char.
Definition nl : string := String newline "".

(** [str.isdigit] on one character; code points below 256 only.  Besides
    the decimal digits, Python counts the superscript digits U+00B2,
    U+00B3 and U+00B9. *)
Definition char_isdigit (c : ascii) : bool :=
  let n := nat_of_ascii c in
  ((48 <=? n)%nat && (n <=? 57)%nat)
  || (n =? 178)%nat || (n =? 179)%nat || (n =? 185)%nat.

Fixpoint all_digits (s : string) : bool :=
  match s with
  | EmptyString => true
  | String c r => char_isdigit c && all_digits r
  end.

(** [s.isdigit()]: every character is a digit and there is at least one. *)
Definition isdigit (s : string) : bool :=
  match s with
  | EmptyString => false
  | String _ _ => all_digits s
  end.

(** [s.find(c)] for a one-character needle: the least index, or -1. *)
Fixpoint find (s : string) (c : ascii) : Z :=
  match s with
  | EmptyString => (-1)%Z
  | String a r =>
      if Ascii.eqb a c then 0%Z
      else let i := find r c in if (i =? -1)%Z then (-1)%Z else (i + 1)%Z
  end.

(** Cut a buffer after its first line end: the line with its terminator,
    and what follows. *)
Fixpoint split_line (s : string) : option (string * string) :=
  match s with
  | EmptyString => None
  | String a r =>
      if Ascii.eqb a newline then Some (String a "", r)
      else match split_line r with
           | Some (l, rest) => Some (String a l, rest)
           | None => None
           end
  end.

(** What the terminal delivers for a typed line. *)
Definition chunk (line : string) : string := line ++ nl.

Fixpoint chunks (ls : list string) : string :=
  match ls with
  | [] => ""
  | l :: r => chunk l ++ chunks r
  end.

(** ** Colours and the three LED patterns *)

Definition color : Type := (Z * Z * Z)%type.

Definition red    : color := (255, 0, 0)%Z.
Definition green  : color := (0, 255, 0)%Z.
Definition blue   : color := (0, 0, 255)%Z.
Definition cyan   : color := (0, 255, 255)%Z.
Definition pink   : color := (255, 0, 255)%Z.
Definition yellow : color := (255, 255, 0)%Z.
Definition black  : color := (0, 0, 0)%Z.

Definition pick_led_pattern : list color := [
  black; blue; black; black; cyan; cyan; cyan; black;
  blue; black; blue; black; black; cyan; black; black;
  blue; blue; black; black; black; cyan; black; black;
  blue; black; black; black; cyan; cyan; cyan; black;
  black; pink; pink; black; yellow; black; black; black;
  pink; black; black; black; yellow; black; yellow; black;
  pink; black; black; black; yellow; yellow; black; black;
  black; pink; pink; black; yellow; black; yellow; black ].

Definition key_led_pattern : list color := [
  black; black; black; black; black; black; black; black;
  black; black; black; black; black; yellow; yellow; black;
  black; black; black; black; yellow; black; black; yellow;
  yellow; yellow; yellow; yellow; yellow; black; black; yellow;
  yellow; black; yellow; black; yellow; black; black; yellow;
  yellow; black; yellow; black; black; yellow; yellow; black;
  black; black; black; black; black; black; black; black;
  black; black; black; black; black; black; black; black ].

Definition nokey_led_pattern : list color := [
  red; black; black; black; black; black; black; red;
  black; red; black; black; black; yellow; red; black;
  black; black; red; black; yellow; red; black; yellow;
  yellow; yellow; yellow; red; red; black; black; yellow;
  yellow; black; yellow; red; red; black; black; yellow;
  yellow; black; red; black; black; red; yellow; black;
  black; red; black; black; black; black; red; black;
  red; black; black; black; black; black; black; red ].

(** ** Values, devices and the world *)

Record orientation := mkOrientation { roll : Q; pitch : Q; yaw : Q }.
Record acceleration := mkAcceleration { acc_x : Q; acc_y : Q; acc_z : Q }.

Record datetime := mkDatetime {
  year : nat; month : nat; day : nat;
  hour : nat; minute : nat; second : nat }.

(** The Python values that end up in a row: a [str], a [float], and the
    [str] obtained from a float by ["%s" % x] (its decimal rendering is
    left symbolic). *)
Inductive pyval :=
| PStr (s : string)
| PFloat (x : Q)
| PStrOf (x : Q).

Definition row : Type := list pyval.

(** Calls received by the Sense HAT, oldest first. *)
Inductive hat_event :=
| SetPixels (p : list color)
| ClearPixels
| GetOrientation (o : orientation)
| GetAccelRaw (a : acceleration).

(** What was sent to the console. *)
Inductive out_item :=
| OutText (s : string)
| OutRow (r : row).

Record file := mkFile {
  path : string;
  rows : list row;
  closed : bool }.

(** The exceptions that occur; [FileNotFoundError] is the [OSError] of a
    missing directory. *)
Inductive exn :=
| KeyError (k : string)
| ValueError (msg : string)
| FileNotFoundError (path : string)
| OSError (msg : string)
| RuntimeError (msg : string)
| SystemExit (code : Z).

(** [open_error] is the file system as [open(path, 'w')] meets it: the
    exception raised for a path, or [None] where the file can be created. *)
Record world := World {
  stdin_buf : string;
  tty_queued : list string;
  tty_later : list string;
  stdout : list out_item;
  hat_log : list hat_event;
  pixels : list color;
  log_file : option file;
  open_error : string -> option exn }.

Definition set_stdin (b : string) (q l : list string) (w : world) : world :=
  World b q l (stdout w) (hat_log w) (pixels w) (log_file w) (open_error w).

Definition set_stdout (o : list out_item) (w : world) : world :=
  World (stdin_buf w) (tty_queued w) (tty_later w) o
        (hat_log w) (pixels w) (log_file w) (open_error w).

Definition set_hat (lg : list hat_event) (px : list color) (w : world) : world :=
  World (stdin_buf w) (tty_queued w) (tty_later w) (stdout w)
        lg px (log_file w) (open_error w).

Definition set_log_file (f : option file) (w : world) : world :=
  World (stdin_buf w) (tty_queued w) (tty_later w) (stdout w)
        (hat_log w) (pixels w) f (open_error w).

(** A path cut at its slashes. *)
Fixpoint components (s cur : string) : list string :=
  match s with
  | EmptyString => [cur]
  | String c r =>
      if Ascii.eqb c "/" then cur :: components r ""
      else components r (cur ++ String c "")
  end.

(** One file system, used for the examples: the working directory is the
    root directory, it is read-only and holds nothing but the directory
    [log], which is writable and empty. *)
Inductive place := InRoot | InLog.

(** The directory a list of directory names leads to, if it exists. *)
Fixpoint walk (dirs : list string) (at_ : place) : option place :=
  match dirs with
  | [] => Some at_
  | d :: r =>
      if String.eqb d "" || String.eqb d "." then walk r at_
      else if String.eqb d ".." then walk r InRoot
      else
        match at_ with
        | InRoot => if String.eqb d "log" then walk r InLog else None
        | InLog => None
        end
  end.

Definition log_dir_only (path : string) : option exn :=
  let cs := components path "" in
  let name := last cs "" in
  if existsb (Ascii.eqb zero) (list_ascii_of_string path) then
    Some (ValueError "embedded null byte")
  else if (4095 <? String.length path)%nat
          || existsb (fun c => (255 <? String.length c)%nat) cs then
    Some (OSError "File name too long")
  else
    match walk (removelast cs) InRoot with
    | None => Some (FileNotFoundError path)
    | Some at_ =>
        if String.eqb name "" || String.eqb name "." || String.eqb name ".."
        then Some (OSError "Is a directory")
        else
          match at_ with
          | InLog => None
          | InRoot =>
              if String.eqb name "log" then Some (OSError "Is a directory")
              else Some (OSError "Permission denied")
          end
    end.

(** A world with that file system. *)
Definition mkWorld (b : string) (q l : list string) (o : list out_item)
    (lg : list hat_event) (px : list color) (f : option file) : world :=
  World b q l o lg px f log_dir_only.

(** All characters of standard input not yet consumed by the script, in
    the order in which reads will deliver them. *)
Definition unread (w : world) : string :=
  stdin_buf w ++ chunks (tty_queued w) ++ chunks (tty_later w).

(** The rows of the session file ([[]] before it is opened). *)
Definition file_rows (w : world) : list row :=
  match log_file w with
  | Some f => rows f
  | None => []
  end.

(** ** Outcomes *)

(** A call returns, raises, waits forever for input, or (for the bounded
    unrolling of a [while] loop only) exhausts its bound. *)
Inductive outcome (A : Type) :=
| Ret (a : A) (w : world)
| Raise (e : exn) (w : world)
| Blocked (w : world)
| Fuel.

Arguments Ret {A} a w.
Arguments Raise {A} e w.
Arguments Blocked {A} w.
Arguments Fuel {A}.

Definition M (A : Type) : Type := world -> outcome A.

Definition ret {A} (a : A) : M A := fun w => Ret a w.

Definition bind {A B} (m : M A) (k : A -> M B) : M B :=
  fun w =>
    match m w with
    | Ret a w' => k a w'
    | Raise e w' => Raise e w'
    | Blocked w' => Blocked w'
    | Fuel => Fuel
    end.

Definition raise {A} (e : exn) : M A := fun w => Raise e w.

Notation "x <- m ;; k" := (bind m (fun x => k))
  (at level 61, m at next level, right associativity).
Notation "m ;;; k" := (bind m (fun _ => k))
  (at level 61, right associativity).

(** The world an outcome leaves behind, when there is one. *)
Definition final_world {A} (o : outcome A) : option world :=
  match o with
  | Ret _ w | Raise _ w | Blocked w => Some w
  | Fuel => None
  end.

(** ** Python control flow *)

(** [while cond: body], unrolled at most [fuel] times. *)
Fixpoint while_ {S : Type} (fuel : nat) (cond : S -> bool)
    (body : S -> M S) (s : S) : M S :=
  if cond s then
    match fuel with
    | O => fun _ => Fuel
    | Datatypes.S f => s' <- body s ;; while_ f cond body s'
    end
  else ret s.

(** A dict literal, and subscription [d[k]] which raises [KeyError]. *)
Fixpoint dict_get {V : Type} (d : list (string * V)) (k : string) : option V :=
  match d with
  | [] => None
  | (k', v) :: r => if String.eqb k' k then Some v else dict_get r k
  end.

Definition getitem {V : Type} (d : list (string * V)) (k : string) : M V :=
  match dict_get d k with
  | Some v => ret v
  | None => raise (KeyError k)
  end.

(** ** The console and standard input *)

Definition print (s : string) : M unit :=
  fun w => Ret tt (set_stdout (stdout w ++ [OutText s])%list w).

Definition print_row (r : row) : M unit :=
  fun w => Ret tt (set_stdout (stdout w ++ [OutRow r])%list w).

(** One read on the terminal's descriptor: the oldest queued line, or
    else the next line the operator types; forever blocked when the
    operator types nothing more.  The line comes without its terminator. *)
Definition fetch_line : M string :=
  fun w =>
    match tty_queued w with
    | l :: q => Ret l (set_stdin (stdin_buf w) q (tty_later w) w)
    | [] =>
        match tty_later w with
        | l :: r => Ret l (set_stdin (stdin_buf w) [] r w)
        | [] => Blocked w
        end
    end.

(** [sys.stdin.read(1)]: served from the buffer; an empty buffer is first
    refilled with one whole line from the descriptor. *)
Definition stdin_read1 : M string :=
  fun w =>
    match stdin_buf w with
    | String c b => Ret (String c "") (set_stdin b (tty_queued w) (tty_later w) w)
    | EmptyString =>
        (l <- fetch_line ;;
         fun w' =>
           match chunk l with
           | String c b =>
               Ret (String c "") (set_stdin b (tty_queued w') (tty_later w') w')
           | EmptyString => Ret "" w'
           end) w
    end.

(** [sys.stdin.readline()]: up to and including the first line end, taken
    from the buffer when it holds one, else completed by one read on the
    descriptor. *)
Definition stdin_readline : M string :=
  fun w =>
    match split_line (stdin_buf w) with
    | Some (line, rest) =>
        Ret line (set_stdin rest (tty_queued w) (tty_later w) w)
    | None =>
        (l <- fetch_line ;;
         fun w' =>
           match split_line (stdin_buf w' ++ chunk l) with
           | Some (line, rest) =>
               Ret line (set_stdin rest (tty_queued w') (tty_later w') w')
           | None =>
               Ret (stdin_buf w' ++ chunk l)
                   (set_stdin "" (tty_queued w') (tty_later w') w')
           end) w
    end.

(** The builtin [input(prompt)] of an interactive session: writes the
    prompt and reads one line from the terminal. *)
Definition input (prompt : string) : M string :=
  print prompt ;;; fetch_line.

(** The objects [select.select] can be asked about. *)
Inductive stream := sys_stdin.

Definition stream_eqb (a b : stream) : bool := true.

(** [select.select(rlist, [], [], 0)]: the members of [rlist] whose
    descriptor has input queued, without waiting. *)
Definition select_select (rlist : list stream) : M (list stream) :=
  fun w =>
    Ret (filter (fun _ => match tty_queued w with [] => false | _ => true end)
                rlist) w.

(** The operator types [n] more lines while the script is busy. *)
Definition operator_types (n : nat) : M unit :=
  fun w =>
    Ret tt (set_stdin (stdin_buf w)
                      (tty_queued w ++ firstn n (tty_later w))%list
                      (skipn n (tty_later w)) w).

(** ** The Sense HAT *)

Definition valid_pixel (c : color) : bool :=
  let '(r, g, b) := c in
  ((0 <=? r) && (r <=? 255) && (0 <=? g) && (g <=? 255)
   && (0 <=? b) && (b <=? 255))%Z.

(** [sense.set_pixels]: refuses a list that is not 64 valid pixels. *)
Definition set_pixels (p : list color) : M unit :=
  fun w =>
    if negb (List.length p =? 64)%nat then
      Raise (ValueError "Pixel lists must have 64 elements") w
    else if negb (forallb valid_pixel p) then
      Raise (ValueError "Pixel elements must be between 0 and 255") w
    else Ret tt (set_hat (hat_log w ++ [SetPixels p])%list p w).

(** [sense.clear()]: every LED off. *)
Definition clear : M unit :=
  fun w => Ret tt (set_hat (hat_log w ++ [ClearPixels])%list (repeat black 64) w).

Definition get_orientation_degrees (reading : orientation) : M orientation :=
  fun w =>
    Ret reading (set_hat (hat_log w ++ [GetOrientation reading])%list (pixels w) w).

Definition get_accelerometer_raw (reading : acceleration) : M acceleration :=
  fun w =>
    Ret reading (set_hat (hat_log w ++ [GetAccelRaw reading])%list (pixels w) w).

(** ** The log file *)

(** [open(file_path, 'w')]: a fresh, empty file, or the exception the
    file system has for that path. *)
Definition open_w (file_path : string) : M unit :=
  fun w =>
    match open_error w file_path with
    | Some e => Raise e w
    | None => Ret tt (set_log_file (Some (mkFile file_path [] false)) w)
    end.

(** [writer.writerow(r)]: one more row at the end of the open file. *)
Definition writerow (r : row) : M unit :=
  fun w =>
    match log_file w with
    | Some f =>
        if closed f then Raise (ValueError "I/O operation on closed file") w
        else Ret tt (set_log_file
                       (Some (mkFile (path f) (rows f ++ [r])%list false)) w)
    | None => Raise (ValueError "I/O operation on closed file") w
    end.

Definition close_log (w : world) : world :=
  match log_file w with
  | Some f => set_log_file (Some (mkFile (path f) (rows f) true)) w
  | None => w
  end.

(** The [with open(...) as file:] block around a body that never ends
    normally: an exception leaving the block closes the file. *)
Definition with_file {A : Type} (body : M A) : M A :=
  fun w =>
    match body w with
    | Raise e w' => Raise e (close_log w')
    | o => o
    end.

(** ** Time *)

Definition digit (n : nat) : ascii := ascii_of_nat (48 + n mod 10).

Definition pad2 (n : nat) : string :=
  String (digit (n / 10)) (String (digit n) "").

Definition pad4 (n : nat) : string :=
  String (digit (n / 1000)) (String (digit (n / 100)) (pad2 n)).

(** A number in decimal, without padding. *)
Fixpoint decimal_digits (fuel n : nat) : string :=
  match fuel with
  | O => ""
  | S f =>
      if (n <? 10)%nat then String (digit n) ""
      else decimal_digits f (n / 10) ++ String (digit n) ""
  end.

Definition decimal (n : nat) : string := decimal_digits (S n) n.

(** The [strftime] directives the script uses, as the C library of the
    Raspberry Pi renders them: two digits, zero-padded, for all fields but
    the year, which is the decimal number without padding. *)
Definition directive (c : ascii) (d : datetime) : string :=
  if Ascii.eqb c "m" then pad2 (month d)
  else if Ascii.eqb c "d" then pad2 (day d)
  else if Ascii.eqb c "Y" then decimal (year d)
  else if Ascii.eqb c "H" then pad2 (hour d)
  else if Ascii.eqb c "M" then pad2 (minute d)
  else if Ascii.eqb c "S" then pad2 (second d)
  else String "%" (String c "").

Fixpoint strftime (fmt : string) (d : datetime) : string :=
  match fmt with
  | EmptyString => ""
  | String a r =>
      if Ascii.eqb a "%" then
        match r with
        | String c r' => directive c d ++ strftime r' d
        | EmptyString => String a ""
        end
      else String a (strftime r d)
  end.

(** A date and time as [datetime] can hold it. *)
Definition datetime_ok (d : datetime) : Prop :=
  1 <= year d < 100 * 100 /\ 1 <= month d <= 12 /\ 1 <= day d <= 31 /\
  hour d < 24 /\ minute d < 60 /\ second d < 60.

(** ** The script *)

(** The [for s in i] loop of [keyboard_handler]. *)
Fixpoint keyboard_handler_for (i : list stream) : M bool :=
  match i with
  | [] => ret false
  | s :: i' =>
      if stream_eqb s sys_stdin then
        _ <- stdin_readline ;; ret true
      else keyboard_handler_for i'
  end.

Definition keyboard_handler : M bool :=
  i <- select_select [sys_stdin] ;;
  keyboard_handler_for i.

Definition exit_message : string := "Exiting logger script".

(** Where the main thread is when it takes a signal: inside a write on
    [sys.stdout] (a [print] of the script that has not returned), or
    anywhere else. *)
Inductive point := StdoutIdle | StdoutBusy.

Definition reentrant_call : string :=
  "reentrant call inside <_io.BufferedWriter name='<stdout>'>".

(** [print] as a signal handler calls it: a buffered stream refuses a
    call made while another call on it is in progress. *)
Definition print_at (pt : point) (s : string) : M unit :=
  match pt with
  | StdoutIdle => print s
  | StdoutBusy => raise (RuntimeError reentrant_call)
  end.

Definition sigint_handler (pt : point) : M unit :=
  print_at pt exit_message ;;;
  clear ;;;
  raise (SystemExit 0).

Definition name_prompt : string :=
  "Please type in your name and hit ENTER to confirm: ".

Definition check_prompt (name : string) : string :=
  "Is this name correct? [enter Y/y for yes or N/n for no] --> " ++ name ++ ": ".

(** The loop condition of [set_name], on the pair (name_check, name). *)
Definition name_rejected (st : string * string) : bool :=
  negb (find (fst st) "N" =? -1)%Z || negb (find (fst st) "n" =? -1)%Z.

Definition set_name_body (st : string * string) : M (string * string) :=
  name <- input name_prompt ;;
  name_check <- input (check_prompt name) ;;
  ret (name_check, name).

(** The number of lines the operator has typed or will type. *)
Definition lines_left (w : world) : nat :=
  List.length (tty_queued w) + List.length (tty_later w).

Definition set_name : M string :=
  fun w =>
    (st <- while_ (S (lines_left w)) name_rejected set_name_body ("N", "") ;;
     ret (snd st)) w.

Definition mode_prompt : string :=
  "Please enter the number corresponding to the desired mode and hit ENTER to confirm:"
  ++ nl ++ "		[1->pick] [2->key] [3->nokey]".

Definition mode_dict : list (string * string) :=
  [("1", "pick"); ("2", "key"); ("3", "nokey")].

Definition select_mode : M string :=
  fun w =>
    (print mode_prompt ;;;
     num_mode <- stdin_read1 ;;
     num_mode <- while_ (S (String.length (unread w)))
                        (fun c => Bool.eqb (isdigit c) false)
                        (fun _ => stdin_read1) num_mode ;;
     mode <- getitem mode_dict num_mode ;;
     ret mode) w.

Definition pattern_dict : list (string * list color) :=
  [("pick", pick_led_pattern); ("key", key_led_pattern);
   ("nokey", nokey_led_pattern)].

Definition display_mode (mode : string) : M unit :=
  current_pattern <- getitem pattern_dict mode ;;
  set_pixels current_pattern.

(** What one iteration of the loop receives from outside. *)
Record tick := mkTick {
  arrivals : nat;
  t_orientation : orientation;
  t_accel : acceleration;
  t_time : Q;
  t_now : datetime }.

(** The local variables of [log_orientation] that the loop uses. *)
Record locals := mkLocals {
  l_name : string;
  l_mode : string;
  l_start_time : Q }.

Definition csv_header : row :=
  [PStr "roll"; PStr "pitch"; PStr "yaw"; PStr "x"; PStr "y"; PStr "z";
   PStr "timestamp"; PStr "runtime"; PStr "mode"; PStr "name"].

(** The [data] list of one sampling iteration. *)
Definition sample_row (l : locals) (o : orientation) (a : acceleration)
    (now : Q) (stamp : datetime) : row :=
  [PStrOf (roll o); PStrOf (pitch o); PStrOf (yaw o);
   PStrOf (acc_x a); PStrOf (acc_y a); PStrOf (acc_z a);
   PStr (strftime "%m/%d/%Y_%H:%M:%S" stamp);
   PFloat (now - l_start_time l)%Q;
   PStr (l_mode l);
   PStr (l_name l)].

(** One pass through the body of [while True]. *)
Definition loop_body (tk : tick) (l : locals) : M locals :=
  operator_types (arrivals tk) ;;;
  pending <- keyboard_handler ;;
  if pending then
    mode <- select_mode ;;
    ret (mkLocals (l_name l) mode (l_start_time l))
  else
    display_mode (l_mode l) ;;;
    orient <- get_orientation_degrees (t_orientation tk) ;;
    raw_acceleration <- get_accelerometer_raw (t_accel tk) ;;
    let data := sample_row l orient raw_acceleration (t_time tk) (t_now tk) in
    writerow data ;;;
    print_row data ;;;
    ret l.

(** The first iterations of [while True], one per tick. *)
Fixpoint loop (ticks : list tick) (l : locals) : M locals :=
  match ticks with
  | [] => ret l
  | tk :: r => l' <- loop_body tk l ;; loop r l'
  end.

Definition file_path (name : string) (now : datetime) : string :=
  "./log/" ++ name ++ "_" ++ "log" ++ "_"
  ++ strftime "%m_%d_%Y_%H_%M_%S" now ++ ".csv".

(** [log_orientation], up to the state reached after [ticks] iterations;
    [now0] and [t0] are the clock readings taken during setup. *)
Definition log_orientation (now0 : datetime) (t0 : Q) (ticks : list tick)
    : M locals :=
  name <- set_name ;;
  mode <- select_mode ;;
  open_w (file_path name now0) ;;;
  with_file
    (writerow csv_header ;;;
     loop ticks (mkLocals name mode t0)).

(** SIGINT taken at [pt] in world [w]: the handler runs, and the
    exception it raises unwinds through the [with] block when the file is
    open. *)
Definition interrupt (pt : point) : M unit := with_file (sigint_handler pt).

(** The status the process ends with. *)
Definition exit_status {A : Type} (o : outcome A) : option Z :=
  match o with
  | Ret _ _ => Some 0%Z
  | Raise (SystemExit c) _ => Some c
  | Raise _ _ => Some 1%Z
  | Blocked _ | Fuel => None
  end.

(** A whole run that is interrupted after [ticks] iterations, at [pt]:
    [StdoutBusy] when the signal is taken before the last [print] of
    these iterations has returned. *)
Definition session (pt : point) (now0 : datetime) (t0 : Q)
    (ticks : list tick) : M unit :=
  log_orientation now0 t0 ticks ;;; interrupt pt.

(** A world at program start: nothing read, nothing shown, no file. *)
Definition initial (typed : list string) (px : list color) : world :=
  mkWorld "" [] typed [] [] px None.

(** ** Vocabulary of the statements *)

(** The characters before the first digit are skipped; [first_digit]
    names that digit and what follows it. *)
Fixpoint first_digit (s : string) : option (ascii * string) :=
  match s with
  | EmptyString => None
  | String c r => if char_isdigit c then Some (c, r) else first_digit r
  end.

Fixpoint no_digit (s : string) : bool :=
  match s with
  | EmptyString => true
  | String c r => negb (char_isdigit c) && no_digit r
  end.

(** The lines standard input still holds or will receive, oldest first. *)
Definition all_lines (w : world) : list string :=
  (tty_queued w ++ tty_later w)%list.

(** Two worlds with the same Sense HAT history, LEDs and log file. *)
Definition same_devices (w w' : world) : Prop :=
  hat_log w' = hat_log w /\ pixels w' = pixels w /\ log_file w' = log_file w.

(** A confirmation answer holds a negative token when it contains the
    letter N, in either case. *)
Definition negative_token (check : string) : Prop :=
  In "N"%char (list_ascii_of_string check) \/
  In "n"%char (list_ascii_of_string check).

(** The three capture modes. *)
Definition valid_modes : list string := ["pick"; "key"; "nokey"].

(** The session file is open for writing. *)
Definition file_open (w : world) : Prop :=
  exists f, log_file w = Some f /\ closed f = false.

(** Whether the iteration fed by [tk] finds input queued: some line was
    already waiting, or arrives before the poll. *)
Definition pending (tk : tick) (w : world) : bool :=
  match (tty_queued w ++ firstn (arrivals tk) (tty_later w))%list with
  | [] => false
  | _ :: _ => true
  end.

(** The row a sampling iteration writes for tick [tk] while the mode is
    [mode], in a session with the name and start time of [l]. *)
Definition row_of (l : locals) (p : tick * string) : row :=
  sample_row (mkLocals (l_name l) (snd p) (l_start_time l))
             (t_orientation (fst p)) (t_accel (fst p))
             (t_time (fst p)) (t_now (fst p)).

(** The values read from the sensor, in the order of the reads. *)
Fixpoint sensor_cells (lg : list hat_event) : list pyval :=
  match lg with
  | [] => []
  | GetOrientation o :: r =>
      PStrOf (roll o) :: PStrOf (pitch o) :: PStrOf (yaw o) :: sensor_cells r
  | GetAccelRaw a :: r =>
      PStrOf (acc_x a) :: PStrOf (acc_y a) :: PStrOf (acc_z a) :: sensor_cells r
  | _ :: r => sensor_cells r
  end.

(** [subseq xs ys]: [xs] is [ys] with some elements left out, the rest in
    their order. *)
Inductive subseq {A : Type} : list A -> list A -> Prop :=
| subseq_nil : subseq [] []
| subseq_skip (x : A) (xs ys : list A) : subseq xs ys -> subseq xs (x :: ys)
| subseq_take (x : A) (xs ys : list A) :
    subseq xs ys -> subseq (x :: xs) (x :: ys).

(** The runtime cell of a sample row. *)
Definition runtime_of (r : row) : option Q :=
  match nth_error r 7 with
  | Some (PFloat x) => Some x
  | _ => None
  end.

(** What a sampling iteration leaves behind. *)
Definition sampled (tk : tick) (l : locals) (w w' : world) : Prop :=
  exists p,
    dict_get pattern_dict (l_mode l) = Some p /\
    file_rows w' = (file_rows w ++ [row_of l (tk, l_mode l)])%list /\
    file_open w' /\
    hat_log w' = (hat_log w ++ [SetPixels p; GetOrientation (t_orientation tk);
                                GetAccelRaw (t_accel tk)])%list /\
    pixels w' = p /\
    stdout w' = (stdout w ++ [OutRow (row_of l (tk, l_mode l))])%list /\
    stdin_buf w' = stdin_buf w /\ tty_queued w' = [] /\
    tty_later w' = skipn (arrivals tk) (tty_later w).

(** A call keeps relation [R] when every world it can leave behind is
    related to the world it started in. *)
Definition keeps (R : world -> world -> Prop) {A : Type} (m : M A) : Prop :=
  forall w w', final_world (m w) = Some w' -> R w w'.

(** Two worlds with the same buffer of [sys.stdin]. *)
Definition same_buffer (w w' : world) : Prop := stdin_buf w' = stdin_buf w.

(** The buffer of [sys.stdin] ends with a line end. *)
Definition holds_line_end (w : world) : Prop :=
  exists s, stdin_buf w = s ++ nl.

(** A buffer that is empty or ends with a line end: what is left of
    delivered lines after some of their characters were read. *)
Definition line_tail (b : string) : Prop :=
  b = "" \/ exists s, b = s ++ nl.

(** The name dialogue as a function of the lines typed: rounds of a name
    and an answer, up to the first answer that is not a rejection. *)
Fixpoint dialogue (lines : list string) : option (string * list string) :=
  match lines with
  | name :: check :: rest =>
      if name_rejected (check, name) then dialogue rest else Some (name, rest)
  | _ => None
  end.

(** The pattern registered for a mode ([[]] when there is none). *)
Definition pattern_of (mode : string) : list color :=
  match dict_get pattern_dict mode with
  | Some p => p
  | None => []
  end.

(** The calls one sampling pass makes on the Sense HAT. *)
Definition hat_calls (p : tick * string) : list hat_event :=
  [SetPixels (pattern_of (snd p)); GetOrientation (t_orientation (fst p));
   GetAccelRaw (t_accel (fst p))].

(** The rows echoed on the console, oldest first. *)
Fixpoint printed_rows (out : list out_item) : list row :=
  match out with
  | [] => []
  | OutRow r :: o => r :: printed_rows o
  | OutText _ :: o => printed_rows o
  end.

(** Two worlds whose console shows the same rows. *)
Definition same_echo (w w' : world) : Prop :=
  printed_rows (stdout w') = printed_rows (stdout w).

(** The buffer holds the end of exactly one typed line: some characters
    without a line end, then the line end. *)
Definition one_line_left (w : world) : Prop :=
  exists s, stdin_buf w = s ++ nl /\ split_line s = None.

(** * Properties *)

(** ** Strings *)

Lemma append_assoc (a b c : string) : (a ++ b) ++ c = a ++ (b ++ c).
Proof. induction a as [|x a IH]; simpl; [reflexivity | now rewrite IH]. Qed.

Lemma append_empty_r (a : string) : a ++ "" = a.
Proof. induction a as [|x a IH]; simpl; [reflexivity | now rewrite IH]. Qed.

Lemma length_append (a b : string) :
  String.length (a ++ b) = String.length a + String.length b.
Proof. induction a as [|x a IH]; simpl; [reflexivity | now rewrite IH]. Qed.

Lemma chunks_app (xs ys : list string) :
  chunks (xs ++ ys)%list = chunks xs ++ chunks ys.
Proof.
  induction xs as [|x xs IH]; simpl; [reflexivity|].
  now rewrite IH, append_assoc.
Qed.

(** A delivered line is never empty: it ends with the line end. *)
Lemma chunk_cons (l : string) :
  exists c b, chunk l = String c b /\
              (l = "" -> c = newline /\ b = "") /\
              (forall x l', l = String x l' -> c = x /\ b = chunk l').
Proof.
  destruct l as [|x l'].
  - exists newline, "". repeat split; intros; try discriminate; reflexivity.
  - exists x, (chunk l'). repeat split; intros; try discriminate;
      congruence.
Qed.

Lemma first_digit_app (pre : string) (d : ascii) (rest : string) :
  no_digit pre = true -> char_isdigit d = true ->
  first_digit (pre ++ String d rest) = Some (d, rest).
Proof.
  induction pre as [|c pre IH]; simpl; intros Hp Hd.
  - now rewrite Hd.
  - apply andb_true_iff in Hp as [Hc Hp].
    apply negb_true_iff in Hc. rewrite Hc. now apply IH.
Qed.

Lemma first_digit_none (s : string) :
  no_digit s = true -> first_digit s = None.
Proof.
  induction s as [|c s IH]; simpl; intros H; [reflexivity|].
  apply andb_true_iff in H as [Hc Hs].
  apply negb_true_iff in Hc. rewrite Hc. now apply IH.
Qed.

Lemma first_digit_split (s : string) (d : ascii) (rest : string) :
  first_digit s = Some (d, rest) ->
  exists pre, s = pre ++ String d rest /\ no_digit pre = true
              /\ char_isdigit d = true.
Proof.
  revert d rest. induction s as [|c s IH]; simpl; intros d rest H.
  - discriminate.
  - destruct (char_isdigit c) eqn:Hc.
    + inversion H; subst. exists "". now repeat split.
    + destruct (IH _ _ H) as (pre & -> & Hp & Hd).
      exists (String c pre). simpl. rewrite Hc. now repeat split.
Qed.

Lemma isdigit_char (c : ascii) : isdigit (String c "") = char_isdigit c.
Proof. simpl. now rewrite andb_true_r. Qed.

Lemma split_line_app (s t line rest : string) :
  split_line s = Some (line, rest) ->
  split_line (s ++ t) = Some (line, rest ++ t).
Proof.
  revert line rest. induction s as [|a s IH]; simpl; intros line rest H.
  - discriminate.
  - destruct (Ascii.eqb a newline).
    + now inversion H.
    + destruct (split_line s) as [[l r]|]; [|discriminate].
      inversion H; subst. now rewrite (IH _ _ eq_refl).
Qed.

Lemma split_line_none_app (s t : string) :
  split_line s = None ->
  split_line (s ++ t) =
  match split_line t with
  | Some (line, rest) => Some (s ++ line, rest)
  | None => None
  end.
Proof.
  induction s as [|a s IH]; simpl; intros H.
  - now destruct (split_line t) as [[l r]|].
  - destruct (Ascii.eqb a newline); [discriminate|].
    destruct (split_line s) as [[l r]|]; [discriminate|].
    rewrite (IH eq_refl). now destruct (split_line t) as [[l r]|].
Qed.

Lemma split_line_join (s line rest : string) :
  split_line s = Some (line, rest) -> s = line ++ rest.
Proof.
  revert line rest. induction s as [|a s IH]; simpl; intros line rest H.
  - discriminate.
  - destruct (Ascii.eqb a newline).
    + now inversion H.
    + destruct (split_line s) as [[l r]|]; [|discriminate].
      inversion H; subst. simpl. now rewrite <- (IH _ _ eq_refl).
Qed.

(** ** Reading standard input *)

Lemma unread_all_lines (w : world) :
  unread w = stdin_buf w ++ chunks (all_lines w).
Proof. unfold unread, all_lines. now rewrite chunks_app. Qed.

Lemma same_devices_refl (w : world) : same_devices w w.
Proof. now repeat split. Qed.

Lemma same_devices_trans (w1 w2 w3 : world) :
  same_devices w1 w2 -> same_devices w2 w3 -> same_devices w1 w3.
Proof.
  intros (A & B & C) (A' & B' & C'). repeat split; congruence.
Qed.

#[local] Hint Resolve same_devices_refl : core.

Lemma fetch_line_spec (w : world) :
  match all_lines w with
  | [] => fetch_line w = Blocked w
  | l :: r =>
      exists w', fetch_line w = Ret l w' /\ all_lines w' = r /\
                 tty_queued w' = tl (tty_queued w) /\
                 stdin_buf w' = stdin_buf w /\ stdout w' = stdout w /\
                 same_devices w w'
  end.
Proof.
  destruct w as [buf q lt out lg px f]. unfold all_lines, fetch_line. simpl.
  destruct q as [|l q]; simpl.
  - destruct lt as [|l lt]; [reflexivity|].
    eexists. repeat split.
  - eexists. repeat split.
Qed.

(** [read(1)] hands over the next unread character, and waits forever
    exactly when nothing is left to read. *)
Lemma stdin_read1_spec (w : world) :
  match unread w with
  | EmptyString => stdin_read1 w = Blocked w
  | String c r =>
      exists w', stdin_read1 w = Ret (String c "") w' /\ unread w' = r /\
                 stdout w' = stdout w /\ same_devices w w'
  end.
Proof.
  rewrite unread_all_lines.
  destruct (stdin_buf w) as [|c b] eqn:Hb; simpl.
  - pose proof (fetch_line_spec w) as Hf.
    unfold stdin_read1, bind. rewrite Hb.
    destruct (all_lines w) as [|l r]; simpl.
    + now rewrite Hf.
    + destruct Hf as (w' & -> & Hl & Hq & Hb' & Ho & Hd).
      destruct (chunk_cons l) as (x & y & Hc & _). rewrite Hc. simpl.
      eexists. split; [reflexivity|]. split.
      * rewrite unread_all_lines. unfold all_lines in *. simpl.
        now rewrite Hl.
      * now split.
  - unfold stdin_read1. rewrite Hb. eexists. split; [reflexivity|].
    split; [|now repeat split].
    now rewrite unread_all_lines.
Qed.

(** ** [select_mode] *)

(** The [while] loop of [select_mode], started on character [c]: it ends
    on the first digit among [c] and the unread input, and waits forever
    when there is none. *)
Lemma select_mode_loop (fuel : nat) : forall (c : ascii) (w : world),
  String.length (unread w) < fuel ->
  match first_digit (String c (unread w)) with
  | Some (d, rest) =>
      exists w',
        while_ fuel (fun c => Bool.eqb (isdigit c) false)
               (fun _ => stdin_read1) (String c "") w = Ret (String d "") w'
        /\ unread w' = rest /\ stdout w' = stdout w /\ same_devices w w'
  | None =>
      exists w',
        while_ fuel (fun c => Bool.eqb (isdigit c) false)
               (fun _ => stdin_read1) (String c "") w = Blocked w'
        /\ stdout w' = stdout w /\ same_devices w w'
  end.
Proof.
  induction fuel as [|fuel IH]; intros c w Hlt; [lia|].
  cbn [while_ first_digit]. rewrite isdigit_char.
  destruct (char_isdigit c) eqn:Hc; cbn [Bool.eqb].
  - exists w. now repeat split.
  - unfold bind. pose proof (stdin_read1_spec w) as Hr.
    destruct (unread w) as [|c' r] eqn:Hu.
    + rewrite Hr. cbn [first_digit]. exists w. now repeat split.
    + destruct Hr as (w1 & -> & Hu1 & Ho1 & Hd1).
      assert (Hlt1 : String.length (unread w1) < fuel).
      { rewrite Hu1. simpl in Hlt. lia. }
      specialize (IH c' w1 Hlt1). rewrite Hu1 in IH.
      destruct (first_digit (String c' r)) as [[d rest]|].
      * destruct IH as (w' & -> & Hu' & Ho' & Hd').
        exists w'. repeat split; try congruence.
        all: destruct Hd1 as (?&?&?), Hd' as (?&?&?); congruence.
      * destruct IH as (w' & -> & Ho' & Hd').
        exists w'. repeat split; try congruence.
        all: destruct Hd1 as (?&?&?), Hd' as (?&?&?); congruence.
Qed.

(** What [select_mode] does, read off the first digit of the input. *)
Lemma select_mode_spec (w : world) :
  match first_digit (unread w) with
  | Some (d, rest) =>
      match dict_get mode_dict (String d "") with
      | Some m =>
          exists w', select_mode w = Ret m w' /\ unread w' = rest /\
                     stdout w' = (stdout w ++ [OutText mode_prompt])%list /\
                     same_devices w w'
      | None =>
          exists w', select_mode w = Raise (KeyError (String d "")) w' /\
                     unread w' = rest /\
                     stdout w' = (stdout w ++ [OutText mode_prompt])%list /\
                     same_devices w w'
      end
  | None =>
      exists w', select_mode w = Blocked w' /\
                 stdout w' = (stdout w ++ [OutText mode_prompt])%list /\
                 same_devices w w'
  end.
Proof.
  unfold select_mode, bind.
  set (w0 := set_stdout (stdout w ++ [OutText mode_prompt])%list w).
  change (print mode_prompt w) with (Ret tt w0).
  assert (Hu0 : unread w0 = unread w) by reflexivity.
  assert (Ho0 : stdout w0 = (stdout w ++ [OutText mode_prompt])%list)
    by reflexivity.
  assert (Hd0 : same_devices w w0) by (now repeat split).
  pose proof (stdin_read1_spec w0) as Hr. rewrite Hu0 in Hr.
  destruct (unread w) as [|c r] eqn:Hu.
  - rewrite Hr. cbn [first_digit]. exists w0. now repeat split.
  - destruct Hr as (w1 & -> & Hu1 & Ho1 & Hd1).
    assert (Hlt : String.length (unread w1) < S (String.length (String c r))).
    { rewrite Hu1. simpl. lia. }
    pose proof (select_mode_loop _ c w1 Hlt) as Hl. rewrite Hu1 in Hl.
    destruct (first_digit (String c r)) as [[d rest]|].
    + destruct Hl as (w2 & -> & Hu2 & Ho2 & Hd2).
      unfold getitem.
      destruct (dict_get mode_dict (String d "")) as [m|];
        exists w2; (split; [reflexivity|]);
        repeat split; try congruence;
        destruct Hd0 as (?&?&?), Hd1 as (?&?&?), Hd2 as (?&?&?); congruence.
    + destruct Hl as (w2 & -> & Ho2 & Hd2).
      exists w2. repeat split; try congruence;
        destruct Hd0 as (?&?&?), Hd1 as (?&?&?), Hd2 as (?&?&?); congruence.
Qed.

(** C4. [select_mode] skips the characters before the first digit and maps
    that digit with the closed mapping 1 -> pick, 2 -> key, 3 -> nokey: on
    input whose first digit is 1, 2 or 3 it returns the corresponding mode
    name, having consumed the input up to and including that digit; on any
    other first digit it returns nothing (it raises [KeyError]); with no
    digit at all it never returns; and whenever it returns, the value is
    the image of the first digit under the mapping, never a default. *)
Theorem select_mode_closed_mapping (w : world) :
  (forall pre d rest,
      unread w = pre ++ String d rest ->
      no_digit pre = true -> char_isdigit d = true ->
      exists w',
        unread w' = rest /\
        select_mode w =
        if Ascii.eqb d "1" then Ret "pick" w'
        else if Ascii.eqb d "2" then Ret "key" w'
        else if Ascii.eqb d "3" then Ret "nokey" w'
        else Raise (KeyError (String d "")) w')
  /\ (no_digit (unread w) = true -> exists w', select_mode w = Blocked w')
  /\ (forall m w',
        select_mode w = Ret m w' ->
        exists pre d rest,
          unread w = pre ++ String d rest /\ no_digit pre = true /\
          In (String d "", m) mode_dict /\ unread w' = rest).
Proof.
  pose proof (select_mode_spec w) as Hs. repeat split.
  - intros pre d rest Hu Hp Hd.
    rewrite Hu, (first_digit_app _ _ _ Hp Hd) in Hs.
    cbn [dict_get mode_dict] in Hs.
    assert (E : forall x, String.eqb (String x "") (String d "") = Ascii.eqb d x).
    { intros x. cbn [String.eqb]. rewrite (Ascii.eqb_sym x d).
      now destruct (Ascii.eqb d x). }
    rewrite !E in Hs.
    destruct (Ascii.eqb d "1"); [|destruct (Ascii.eqb d "2");
                                   [|destruct (Ascii.eqb d "3")]];
      destruct Hs as (w' & Hr & Hu' & _); exists w'; now split.
  - intros Hn. rewrite (first_digit_none _ Hn) in Hs.
    destruct Hs as (w' & Hr & _). now exists w'.
  - intros m w' Hr.
    destruct (first_digit (unread w)) as [[d rest]|] eqn:Hf.
    + destruct (first_digit_split _ _ _ Hf) as (pre & Hu & Hp & Hd).
      exists pre, d, rest. split; [exact Hu|]. split; [exact Hp|].
      cbn [dict_get mode_dict] in Hs.
      destruct (String.eqb "1" (String d "")) eqn:E1.
      { apply String.eqb_eq in E1. rewrite <- E1.
        destruct Hs as (w2 & Hr2 & Hu2 & _). rewrite Hr in Hr2.
        inversion Hr2; subst. split; [now left | reflexivity]. }
      destruct (String.eqb "2" (String d "")) eqn:E2.
      { apply String.eqb_eq in E2. rewrite <- E2.
        destruct Hs as (w2 & Hr2 & Hu2 & _). rewrite Hr in Hr2.
        inversion Hr2; subst. split; [right; now left | reflexivity]. }
      destruct (String.eqb "3" (String d "")) eqn:E3.
      { apply String.eqb_eq in E3. rewrite <- E3.
        destruct Hs as (w2 & Hr2 & Hu2 & _). rewrite Hr in Hr2.
        inversion Hr2; subst.
        split; [right; right; now left | reflexivity]. }
      destruct Hs as (w2 & Hr2 & _). rewrite Hr in Hr2. discriminate.
    + destruct Hs as (w2 & Hr2 & _). rewrite Hr in Hr2. discriminate.
Qed.

Lemma select_mode_closed_mapping_witness :
  exists w',
    unread w' = nl /\
    select_mode (mkWorld nl ["x2"] [] [] [] [] None) = Ret "key" w'.
Proof.
  destruct (select_mode_closed_mapping (mkWorld nl ["x2"] [] [] [] [] None))
    as (H & _ & _).
  exact (H (String newline "x") "2"%char nl eq_refl eq_refl eq_refl).
Defined.

(** C5, as the code has it.  A digit outside 1, 2, 3 is not recovered:
    [select_mode] prompts once, raises [KeyError] for that digit and does
    not read on; nothing catches the exception, so it leaves every
    continuation, ends Setup (in [log_orientation]) and ends the mode-switch
    iteration of the loop, and the process ends with a failure status. *)
Theorem unrecognized_digit_raises (w : world) (pre : string) (d : ascii)
    (rest : string) :
  unread w = pre ++ String d rest ->
  no_digit pre = true -> char_isdigit d = true ->
  dict_get mode_dict (String d "") = None ->
  exists w',
    select_mode w = Raise (KeyError (String d "")) w' /\
    stdout w' = (stdout w ++ [OutText mode_prompt])%list /\
    unread w' = rest /\
    exit_status (select_mode w) = Some 1%Z /\
    (forall (A : Type) (k : string -> M A),
        (m <- select_mode ;; k m) w = Raise (KeyError (String d "")) w') /\
    (forall now0 t0 ticks w0 name,
        set_name w0 = Ret name w ->
        log_orientation now0 t0 ticks w0 = Raise (KeyError (String d "")) w') /\
    (forall tk l w0 more,
        (operator_types (arrivals tk) ;;; keyboard_handler) w0 = Ret true w ->
        loop (tk :: more) l w0 = Raise (KeyError (String d "")) w').
Proof.
  intros Hu Hp Hd Hk.
  pose proof (select_mode_spec w) as Hs.
  rewrite Hu, (first_digit_app _ _ _ Hp Hd), Hk in Hs.
  destruct Hs as (w' & Hr & Hu' & Ho & _).
  exists w'. split; [exact Hr|]. split; [exact Ho|]. split; [exact Hu'|].
  split; [now rewrite Hr|]. split; [|split].
  - intros A k. unfold bind. now rewrite Hr.
  - intros now0 t0 ticks w0 name Hn.
    unfold log_orientation, bind. now rewrite Hn, Hr.
  - intros tk l w0 more Hh.
    cbn [loop]. unfold loop_body, bind in *.
    destruct (operator_types (arrivals tk) w0) as [[] w1|e w1|w1|];
      try discriminate.
    rewrite Hh. now rewrite Hr.
Qed.

Lemma unrecognized_digit_raises_witness :
  exists w',
    select_mode (mkWorld "" [] ["4"; "2"] [] [] [] None)
    = Raise (KeyError "4") w' /\
    unread w' = String newline ("2" ++ nl).
Proof.
  destruct (unrecognized_digit_raises
              (mkWorld "" [] ["4"; "2"] [] [] [] None)
              "" "4"%char (String newline ("2" ++ nl))
              eq_refl eq_refl eq_refl eq_refl)
    as (w' & Hr & _ & Hu & _).
  exists w'. now split.
Defined.

(** C5, as stated, fails: the operator answers the mode prompt of Setup
    with "4" and would then type "2".  The script does not prompt again:
    it ends with [KeyError], the "2" is never read, and the exit status
    is a failure. *)
Lemma unrecognized_digit_ends_process :
  let w0 := initial ["Alice"; "y"; "4"; "2"] [] in
  let run := log_orientation (mkDatetime 2024 3 7 9 5 1) 0 [] w0 in
  exists w',
    run = Raise (KeyError "4") w' /\
    exit_status run = Some 1%Z /\
    all_lines w' = ["2"] /\
    stdout w' = [OutText name_prompt; OutText (check_prompt "Alice");
                 OutText mode_prompt] /\
    log_file w' = None.
Proof.
  cbv zeta. eexists. repeat split.
Qed.

(** ** [keyboard_handler] *)

Lemma split_line_chunk (l : string) :
  exists line rest, split_line (chunk l) = Some (line, rest).
Proof.
  unfold chunk. induction l as [|a l IH]; simpl.
  - now exists nl, "".
  - destruct (Ascii.eqb a newline); [now eexists; eexists|].
    destruct IH as (line & rest & ->). now eexists; eexists.
Qed.

Lemma split_line_chunk_whole (l : string) :
  split_line l = None -> split_line (chunk l) = Some (chunk l, "").
Proof.
  intros H. unfold chunk. now rewrite (split_line_none_app l nl H).
Qed.

Lemma keyboard_handler_idle (w : world) :
  tty_queued w = [] -> keyboard_handler w = Ret false w.
Proof.
  intros H. unfold keyboard_handler, bind, select_select. now rewrite H.
Qed.

(** Input is queued and the buffer of [sys.stdin] holds a line: that
    buffered line is the one [readline] returns; the queue is not touched. *)
Lemma keyboard_handler_buffered (w : world) (line rest : string) :
  tty_queued w <> [] ->
  split_line (stdin_buf w) = Some (line, rest) ->
  keyboard_handler w = Ret true (set_stdin rest (tty_queued w) (tty_later w) w).
Proof.
  intros Hq Hs. unfold keyboard_handler, bind, select_select.
  destruct (tty_queued w) as [|l q] eqn:E; [contradiction|].
  cbn [filter keyboard_handler_for stream_eqb].
  unfold bind, stdin_readline. rewrite Hs. unfold ret, set_stdin.
  now rewrite E.
Qed.

(** Input is queued and the buffer holds no complete line: [readline]
    fetches the oldest queued line to complete one. *)
Lemma keyboard_handler_fetch (w : world) (l : string) (q : list string)
    (line rest : string) :
  tty_queued w = l :: q ->
  split_line (stdin_buf w) = None ->
  split_line (stdin_buf w ++ chunk l) = Some (line, rest) ->
  keyboard_handler w = Ret true (set_stdin rest q (tty_later w) w).
Proof.
  intros Hq Hn Hs. unfold keyboard_handler, bind, select_select.
  rewrite Hq. cbn [filter keyboard_handler_for stream_eqb].
  unfold bind, stdin_readline. rewrite Hn. unfold bind, fetch_line.
  rewrite Hq.
  cbn [stdin_buf tty_queued tty_later set_stdin]. now rewrite Hs.
Qed.

(** With input queued, the handler returns [true] after taking exactly the
    first unread line off standard input. *)
Lemma keyboard_handler_pending (w : world) :
  tty_queued w <> [] ->
  exists line w',
    keyboard_handler w = Ret true w' /\
    split_line (unread w) = Some (line, unread w') /\
    stdout w' = stdout w /\ same_devices w w'.
Proof.
  intros Hq.
  destruct (split_line (stdin_buf w)) as [[line rest]|] eqn:Hs.
  - exists line. eexists.
    split; [exact (keyboard_handler_buffered w line rest Hq Hs)|].
    split; [|now repeat split].
    unfold unread. cbn [stdin_buf tty_queued tty_later set_stdin].
    now apply split_line_app.
  - destruct (tty_queued w) as [|l q] eqn:E; [contradiction|].
    destruct (split_line_chunk l) as (cl & cr & Hc).
    pose proof (split_line_none_app _ (chunk l) Hs) as Hj. rewrite Hc in Hj.
    exists (stdin_buf w ++ cl). eexists.
    split; [exact (keyboard_handler_fetch w l q _ cr E Hs Hj)|].
    split; [|now repeat split].
    unfold unread. rewrite E.
    cbn [stdin_buf tty_queued tty_later set_stdin chunks].
    rewrite (append_assoc (chunk l)), <- (append_assoc (stdin_buf w)).
    now apply split_line_app.
Qed.

(** C6, as the code has it.  [keyboard_handler] polls standard input
    without waiting and always returns: [false], with the world untouched,
    when no line is queued; [true] exactly when one is, and then it has
    itself read one line off [sys.stdin] (the first unread line) before
    returning, so that the caller reads what follows that line. *)
Theorem keyboard_handler_watch (w : world) :
  (tty_queued w = [] -> keyboard_handler w = Ret false w) /\
  (tty_queued w <> [] ->
   exists line w',
     keyboard_handler w = Ret true w' /\
     split_line (unread w) = Some (line, unread w') /\
     stdout w' = stdout w /\ same_devices w w') /\
  (exists b w',
     keyboard_handler w = Ret b w' /\ (b = true <-> tty_queued w <> [])).
Proof.
  split; [apply keyboard_handler_idle|].
  split; [apply keyboard_handler_pending|].
  destruct (tty_queued w) as [|l q] eqn:E.
  - exists false, w. split; [now apply keyboard_handler_idle|].
    split; [discriminate | intros H; now contradiction H].
  - assert (Hq : tty_queued w <> []) by (rewrite E; discriminate).
    destruct (keyboard_handler_pending w Hq) as (line & w' & Hk & _).
    exists true, w'. split; [exact Hk|]. split; [discriminate|reflexivity].
Qed.

Lemma keyboard_handler_watch_witness :
  exists line w',
    keyboard_handler (mkWorld nl ["3"] [] [] [] [] None) = Ret true w' /\
    split_line (unread (mkWorld nl ["3"] [] [] [] [] None))
    = Some (line, unread w').
Proof.
  destruct (keyboard_handler_watch (mkWorld nl ["3"] [] [] [] [] None))
    as (_ & H & _).
  destruct (H ltac:(discriminate)) as (line & w' & Hk & Hs & _).
  exists line, w'. now split.
Defined.

(** C6, as stated, fails: with a line queued the handler does not leave
    the read to its caller.  After a mode selection the buffer holds the
    end of the line that was typed; when the operator then types "3", the
    handler reads that buffered line end.  With an empty buffer it reads
    the typed line itself. *)
Lemma keyboard_handler_reads_input :
  keyboard_handler (mkWorld nl ["3"] [] [] [] [] None)
  = Ret true (mkWorld "" ["3"] [] [] [] [] None) /\
  keyboard_handler (mkWorld "" ["3"] [] [] [] [] None)
  = Ret true (mkWorld "" [] [] [] [] [] None) /\
  ~ (forall w b w', keyboard_handler w = Ret b w' -> unread w' = unread w).
Proof.
  split; [reflexivity|]. split; [reflexivity|].
  intros H.
  specialize (H (mkWorld "" ["3"] [] [] [] [] None) true
                (mkWorld "" [] [] [] [] [] None) eq_refl).
  discriminate H.
Qed.

(** ** [set_name] *)

Lemma lines_left_all_lines (w : world) :
  lines_left w = List.length (all_lines w).
Proof. unfold lines_left, all_lines. now rewrite length_app. Qed.

(** One round of the name dialogue: two prompts, two lines. *)
Lemma set_name_body_spec (st : string * string) (w : world) :
  match all_lines w with
  | name :: check :: rest =>
      exists w2,
        set_name_body st w = Ret (check, name) w2 /\
        all_lines w2 = rest /\
        stdout w2 = (stdout w ++ [OutText name_prompt;
                                  OutText (check_prompt name)])%list /\
        stdin_buf w2 = stdin_buf w /\ same_devices w w2
  | _ => exists w2, set_name_body st w = Blocked w2
  end.
Proof.
  unfold set_name_body, input, bind.
  set (w0 := set_stdout (stdout w ++ [OutText name_prompt])%list w).
  change (print name_prompt w) with (Ret tt w0).
  pose proof (fetch_line_spec w0) as H1.
  change (all_lines w0) with (all_lines w) in H1.
  destruct (all_lines w) as [|name r1] eqn:E.
  - rewrite H1. now exists w0.
  - destruct H1 as (w1 & -> & Hl1 & _ & Hb1 & Ho1 & Hd1).
    set (w1' := set_stdout (stdout w1 ++ [OutText (check_prompt name)])%list w1).
    change (print (check_prompt name) w1) with (Ret tt w1').
    pose proof (fetch_line_spec w1') as H2.
    change (all_lines w1') with (all_lines w1) in H2. rewrite Hl1 in H2.
    destruct r1 as [|check rest].
    + rewrite H2. now exists w1'.
    + destruct H2 as (w2 & -> & Hl2 & _ & Hb2 & Ho2 & Hd2).
      exists w2. split; [reflexivity|]. split; [exact Hl2|].
      split.
      { rewrite Ho2. subst w1'. cbn [stdout set_stdout]. rewrite Ho1.
        subst w0. cbn [stdout set_stdout]. now rewrite <- app_assoc. }
      split; [rewrite Hb2; subst w1'; cbn [stdin_buf set_stdout];
              now rewrite Hb1|].
      destruct Hd1 as (?&?&?), Hd2 as (?&?&?).
      subst w1' w0. cbn in *. repeat split; congruence.
Qed.

(** Any bound above the number of lines left is as good as any other. *)
Lemma set_name_loop_fuel (f1 : nat) : forall f2 st w,
  lines_left w < f1 -> lines_left w < f2 ->
  while_ f1 name_rejected set_name_body st w
  = while_ f2 name_rejected set_name_body st w.
Proof.
  induction f1 as [|f1 IH]; intros f2 st w H1 H2; [lia|].
  destruct f2 as [|f2]; [lia|].
  cbn [while_]. destruct (name_rejected st); [|reflexivity].
  unfold bind. pose proof (set_name_body_spec st w) as Hb.
  rewrite lines_left_all_lines in H1, H2.
  destruct (all_lines w) as [|name [|check rest]] eqn:E.
  - destruct Hb as (w2 & ->). reflexivity.
  - destruct Hb as (w2 & ->). reflexivity.
  - destruct Hb as (w2 & -> & Hl & _).
    apply IH; rewrite lines_left_all_lines, Hl; simpl in *; lia.
Qed.

Lemma find_ge (s : string) (c : ascii) : (-1 <= find s c)%Z.
Proof.
  induction s as [|a s IH]; simpl; [lia|].
  destruct (Ascii.eqb a c); [lia|].
  destruct (find s c =? -1)%Z; lia.
Qed.

Lemma find_absent (s : string) (c : ascii) :
  find s c = (-1)%Z <-> ~ In c (list_ascii_of_string s).
Proof.
  induction s as [|a s IH]; simpl.
  - split; [intros _ []|reflexivity].
  - destruct (Ascii.eqb a c) eqn:E.
    + apply Ascii.eqb_eq in E. split; [discriminate|].
      intros H. exfalso. apply H. now left.
    + apply Ascii.eqb_neq in E.
      pose proof (find_ge s c) as Hg.
      destruct (find s c =? -1)%Z eqn:F.
      * apply Z.eqb_eq in F. split; [|reflexivity].
        intros _ [H|H]; [contradiction|]. now apply IH in F.
      * apply Z.eqb_neq in F. split; [lia|].
        intros H. exfalso. apply F, IH. intros Hin. apply H. now right.
Qed.

(** The loop condition of [set_name] is the presence of a negative token
    in the confirmation answer. *)
Lemma name_rejected_iff (st : string * string) :
  name_rejected st = true <-> negative_token (fst st).
Proof.
  unfold name_rejected, negative_token.
  rewrite orb_true_iff, !negb_true_iff, !Z.eqb_neq, !find_absent.
  pose proof (in_dec ascii_dec "N"%char (list_ascii_of_string (fst st))) as [A|A];
  pose proof (in_dec ascii_dec "n"%char (list_ascii_of_string (fst st))) as [B|B];
    tauto.
Qed.

Lemma while_done {S : Type} (fuel : nat) (cond : S -> bool)
    (body : S -> M S) (s : S) (w : world) :
  cond s = false -> while_ fuel cond body s w = Ret s w.
Proof. intros H. destruct fuel; cbn [while_]; now rewrite H. Qed.

(** What the loop of [set_name] can end with: the state it started from,
    if that was acceptable, or else a name and an accepted confirmation
    that were typed one after the other. *)
Lemma set_name_loop_result (f : nat) : forall st w,
  lines_left w < f ->
  match while_ f name_rejected set_name_body st w with
  | Ret (check, name) w' =>
      (name_rejected st = false /\ (check, name) = st /\ w' = w) \/
      (exists pre,
          all_lines w = (pre ++ name :: check :: all_lines w')%list /\
          name_rejected (check, name) = false)
  | Raise _ _ => False
  | Blocked _ => True
  | Fuel => False
  end.
Proof.
  induction f as [|f IH]; intros st w Hlt; [lia|].
  cbn [while_]. destruct (name_rejected st) eqn:Hc.
  - unfold bind. pose proof (set_name_body_spec st w) as Hb.
    rewrite lines_left_all_lines in Hlt.
    destruct (all_lines w) as [|name [|check rest]] eqn:E;
      try (destruct Hb as (w2 & ->); exact I).
    destruct Hb as (w2 & -> & Hl & _).
    assert (Hlt2 : lines_left w2 < f).
    { rewrite lines_left_all_lines, Hl. simpl in Hlt. lia. }
    specialize (IH (check, name) w2 Hlt2).
    destruct (while_ f name_rejected set_name_body (check, name) w2)
      as [[check' name'] w'|e w'|w'|]; try exact IH.
    right. destruct IH as [(Hr & Heq & ->)|(pre & Hp & Hr)].
    + injection Heq as -> ->. exists []. now rewrite Hl.
    + exists (name :: check :: pre). rewrite <- Hl, Hp. now split.
  - destruct st as [check name]. left. now repeat split.
Qed.

(** C7. [set_name] keeps prompting as long as the confirmation answer
    contains a negative token: a round whose answer has one is followed by
    a fresh round of prompts, a round whose answer has none ends the
    dialogue with the name of that round.  So the name returned is always
    followed in the input by its own, accepted, confirmation; and a
    rejected confirmation never ends setup: [set_name] raises nothing. *)
Theorem set_name_confirmation (w : world) :
  (forall name check rest,
      all_lines w = name :: check :: rest ->
      exists w2,
        set_name_body ("N", "") w = Ret (check, name) w2 /\
        all_lines w2 = rest /\
        stdout w2 = (stdout w ++ [OutText name_prompt;
                                  OutText (check_prompt name)])%list /\
        (negative_token check -> set_name w = set_name w2) /\
        (~ negative_token check -> set_name w = Ret name w2)) /\
  (forall name w',
      set_name w = Ret name w' ->
      exists pre check,
        all_lines w = (pre ++ name :: check :: all_lines w')%list /\
        ~ negative_token check) /\
  (forall e w', set_name w <> Raise e w') /\
  set_name w <> Fuel.
Proof.
  split; [|split; [|split]].
  - intros name check rest E.
    pose proof (set_name_body_spec ("N", "") w) as Hb. rewrite E in Hb.
    destruct Hb as (w2 & Hb & Hl & Ho & _).
    exists w2. split; [exact Hb|]. split; [exact Hl|]. split; [exact Ho|].
    assert (Hlt : lines_left w2 < lines_left w).
    { rewrite !lines_left_all_lines, E, Hl. simpl. lia. }
    assert (Hw : set_name w
                 = (st <- while_ (lines_left w) name_rejected set_name_body
                                 (check, name) ;; ret (snd st)) w2).
    { unfold set_name at 1. unfold bind at 1. cbn [while_].
      change (name_rejected ("N", "")) with true. cbv iota.
      unfold bind at 1. rewrite Hb. reflexivity. }
    split.
    + intros Hneg.
      assert (Hc : name_rejected (check, name) = true)
        by (now apply name_rejected_iff).
      rewrite Hw. unfold set_name, bind.
      rewrite (set_name_loop_fuel (lines_left w) (S (lines_left w2))
                                  (check, name) w2 Hlt (Nat.lt_succ_diag_r _)).
      cbn [while_]. rewrite Hc. reflexivity.
    + intros Hneg.
      assert (Hc : name_rejected (check, name) = false).
      { destruct (name_rejected (check, name)) eqn:Hc; [|reflexivity].
        now apply name_rejected_iff in Hc. }
      rewrite Hw. unfold bind. now rewrite (while_done _ _ _ _ _ Hc).
  - intros name w' Hr.
    pose proof (set_name_loop_result (S (lines_left w)) ("N", "") w
                                     (Nat.lt_succ_diag_r _)) as Hl.
    unfold set_name, bind in Hr.
    destruct (while_ (S (lines_left w)) name_rejected set_name_body
                     ("N", "") w) as [[check' name'] w1|e w1|w1|];
      try discriminate.
    inversion Hr; subst. destruct Hl as [(Hc & _)|(pre & Hp & Hc)].
    + discriminate Hc.
    + exists pre, check'. split; [exact Hp|].
      intros Hneg. apply (name_rejected_iff (check', name)) in Hneg.
      congruence.
  - intros e w' Hr.
    pose proof (set_name_loop_result (S (lines_left w)) ("N", "") w
                                     (Nat.lt_succ_diag_r _)) as Hl.
    unfold set_name, bind in Hr.
    destruct (while_ (S (lines_left w)) name_rejected set_name_body
                     ("N", "") w) as [[check' name'] w1|e1 w1|w1|];
      try discriminate; try contradiction.
  - intros Hr.
    pose proof (set_name_loop_result (S (lines_left w)) ("N", "") w
                                     (Nat.lt_succ_diag_r _)) as Hl.
    unfold set_name, bind in Hr.
    destruct (while_ (S (lines_left w)) name_rejected set_name_body
                     ("N", "") w) as [[check' name'] w1|e1 w1|w1|];
      try discriminate; try contradiction.
Qed.

Lemma set_name_confirmation_witness :
  (exists w2,
      set_name (initial ["Al"; "no"; "Bob"; "y"] []) = set_name w2 /\
      all_lines w2 = ["Bob"; "y"]) /\
  (exists w2,
      set_name (initial ["Bob"; "y"] []) = Ret "Bob" w2 /\ all_lines w2 = []).
Proof.
  split.
  - destruct (set_name_confirmation (initial ["Al"; "no"; "Bob"; "y"] []))
      as (H & _).
    destruct (H "Al" "no" ["Bob"; "y"] eq_refl) as (w2 & _ & Hl & _ & Hneg & _).
    exists w2. split; [|exact Hl].
    apply Hneg. right. simpl. now left.
  - destruct (set_name_confirmation (initial ["Bob"; "y"] [])) as (H & _).
    destruct (H "Bob" "y" [] eq_refl) as (w2 & _ & Hl & _ & _ & Hpos).
    exists w2. split; [|exact Hl].
    apply Hpos. intros [Hn|Hn]; simpl in Hn;
      destruct Hn as [Hn|[]]; discriminate Hn.
Defined.

(** ** [display_mode] *)

(** The three known modes have a pattern of 64 valid pixels each, which
    [display_mode] writes with one [set_pixels] call. *)
Lemma display_mode_known (mode : string) :
  In mode valid_modes ->
  exists p,
    dict_get pattern_dict mode = Some p /\
    List.length p = 64 /\
    In (mode, p) [("pick", pick_led_pattern); ("key", key_led_pattern);
                  ("nokey", nokey_led_pattern)] /\
    forall w,
      display_mode mode w
      = Ret tt (set_hat (hat_log w ++ [SetPixels p])%list p w).
Proof.
  intros Hm.
  assert (H : exists p,
             dict_get pattern_dict mode = Some p /\ List.length p = 64 /\
             In (mode, p) [("pick", pick_led_pattern); ("key", key_led_pattern);
                           ("nokey", nokey_led_pattern)] /\
             forallb valid_pixel p = true).
  { destruct Hm as [<-|[<-|[<-|[]]]]; eexists;
      (split; [reflexivity|]); (split; [reflexivity|]);
      (split; [|reflexivity]); simpl; tauto. }
  destruct H as (p & Hd & Hl & Hin & Hv). exists p.
  repeat split; try assumption.
  intros w. unfold display_mode, bind, getitem. rewrite Hd.
  unfold ret, set_pixels. rewrite Hl, Hv. reflexivity.
Qed.

(** C9. For each of the three modes, [display_mode] sends the one fixed
    pattern of that mode, of 64 entries, to the display in a single
    [set_pixels] call.  The pattern depends on the mode alone: every call
    with the same mode, in whatever world, writes the same 64 entries, and
    a repeated call leaves the same LEDs lit. *)
Theorem display_mode_pattern (mode : string) :
  In mode ["pick"; "key"; "nokey"] ->
  exists p,
    dict_get pattern_dict mode = Some p /\
    List.length p = 64 /\
    In (mode, p) [("pick", pick_led_pattern); ("key", key_led_pattern);
                  ("nokey", nokey_led_pattern)] /\
    (forall w,
        display_mode mode w
        = Ret tt (set_hat (hat_log w ++ [SetPixels p])%list p w)) /\
    (forall w w1 w2,
        display_mode mode w = Ret tt w1 ->
        display_mode mode w1 = Ret tt w2 ->
        pixels w2 = pixels w1 /\ pixels w1 = p).
Proof.
  intros Hm.
  destruct (display_mode_known mode Hm) as (p & Hd & Hl & Hin & Hw).
  exists p. repeat split; try assumption.
  - rewrite Hw in H0. rewrite Hw in H. inversion H. inversion H0. reflexivity.
  - rewrite Hw in H. now inversion H.
Qed.

Lemma display_mode_pattern_witness :
  exists p,
    List.length p = 64 /\
    forall w, display_mode "key" w
              = Ret tt (set_hat (hat_log w ++ [SetPixels p])%list p w).
Proof.
  destruct (display_mode_pattern "key") as (p & _ & Hl & _ & Hw & _).
  - right. now left.
  - exists p. now split.
Defined.

(** ** The interrupt *)

(** The handler taken while [sys.stdout] is idle, in whatever world:
    it prints the exit message, clears the display to 64 black LEDs, and
    raises [SystemExit] with status 0; the rows of the session file are
    exactly those appended before, and the file, if open, is closed on the
    way out.  A run interrupted there after some iterations ends that
    way. *)
Theorem sigint_controlled_shutdown (w : world) :
  exists w',
    interrupt StdoutIdle w = Raise (SystemExit 0) w' /\
    exit_status (interrupt StdoutIdle w) = Some 0%Z /\
    file_rows w' = file_rows w /\
    pixels w' = repeat black 64 /\
    stdout w' = (stdout w ++ [OutText "Exiting logger script"])%list /\
    hat_log w' = (hat_log w ++ [ClearPixels])%list /\
    match log_file w' with
    | Some f => closed f = true
    | None => log_file w = None
    end /\
    forall now0 t0 ticks w0 l,
      log_orientation now0 t0 ticks w0 = Ret l w ->
      session StdoutIdle now0 t0 ticks w0 = Raise (SystemExit 0) w'.
Proof.
  eexists. split; [reflexivity|]. split; [reflexivity|].
  split; [|split; [|split; [|split; [|split]]]];
    try (destruct w as [b q lt out lg px [f|] fs]; reflexivity).
  intros now0 t0 ticks w0 l Hr. unfold session, bind. now rewrite Hr.
Qed.

Lemma sigint_controlled_shutdown_witness :
  exists w',
    session StdoutIdle (mkDatetime 2024 3 7 9 5 1) 0
            [mkTick 0 (mkOrientation 0 0 0) (mkAcceleration 0 0 1) 1
                    (mkDatetime 2024 3 7 9 5 2)]
            (initial ["Alice"; "y"; "2"] [])
    = Raise (SystemExit 0) w' /\
    List.length (file_rows w') = 2 /\ pixels w' = repeat black 64.
Proof.
  pose (d := mkDatetime 2024 3 7 9 5 1).
  pose (tk := mkTick 0 (mkOrientation 0 0 0) (mkAcceleration 0 0 1) 1
                     (mkDatetime 2024 3 7 9 5 2)).
  pose (w0 := initial ["Alice"; "y"; "2"] []).
  destruct (log_orientation d 0 [tk] w0) as [l w| | |] eqn:E;
    try (vm_compute in E; discriminate E).
  destruct (sigint_controlled_shutdown w) as (w' & _ & _ & Hrows & Hpx & _ & _ & _ & Hs).
  exists w'. split; [exact (Hs d 0%Q [tk] w0 l E)|].
  split; [|exact Hpx].
  rewrite Hrows. vm_compute in E. inversion E. reflexivity.
Defined.

(** The handler taken while a [print] of the script is writing on
    [sys.stdout], in whatever world: its own [print] is refused with
    [RuntimeError], so that nothing is printed, the display is not
    cleared and the process ends with status 1.  The rows of the file are
    kept and the file, if open, is closed in this case too. *)
Theorem sigint_reentrant_print (w : world) :
  exists w',
    interrupt StdoutBusy w = Raise (RuntimeError reentrant_call) w' /\
    exit_status (interrupt StdoutBusy w) = Some 1%Z /\
    file_rows w' = file_rows w /\
    pixels w' = pixels w /\ stdout w' = stdout w /\ hat_log w' = hat_log w /\
    match log_file w' with
    | Some f => closed f = true
    | None => log_file w = None
    end /\
    forall now0 t0 ticks w0 l,
      log_orientation now0 t0 ticks w0 = Ret l w ->
      session StdoutBusy now0 t0 ticks w0
      = Raise (RuntimeError reentrant_call) w'.
Proof.
  eexists. split; [reflexivity|]. split; [reflexivity|].
  split; [|split; [|split; [|split; [|split]]]];
    try (destruct w as [b q lt out lg px [f|] fs]; reflexivity).
  intros now0 t0 ticks w0 l Hr. unfold session, bind. now rewrite Hr.
Qed.

(** C8. The controlled shutdown is missed when SIGINT is taken before the
    [print] of a row has returned.  Alice confirms her name and selects
    mode 2; the first pass samples and prints its row, and the signal is
    taken inside that [print].  The process ends with [RuntimeError] and
    status 1; the exit message is not printed and the display is not
    cleared, it still shows the pattern of the mode.  The two rows written
    before are in the file. *)
Theorem sigint_inside_print :
  let d := mkDatetime 2024 3 7 9 5 1 in
  let tk := mkTick 0 (mkOrientation 0 0 0) (mkAcceleration 0 0 1) 1
                   (mkDatetime 2024 3 7 9 5 2) in
  let run := session StdoutBusy d 0 [tk] (initial ["Alice"; "y"; "2"] []) in
  exists w',
    run = Raise (RuntimeError reentrant_call) w' /\
    exit_status run = Some 1%Z /\
    ~ In (OutText exit_message) (stdout w') /\
    ~ In ClearPixels (hat_log w') /\
    pixels w' = key_led_pattern /\
    pixels w' <> repeat black 64 /\
    List.length (file_rows w') = 2%nat.
Proof.
  eexists. split; [vm_compute; reflexivity|].
  split; [vm_compute; reflexivity|].
  split; [intros [H|[H|[H|[H|[]]]]]; discriminate H|].
  split; [intros [H|[H|[H|[]]]]; discriminate H|].
  split; [reflexivity|]. split; [discriminate|]. reflexivity.
Qed.

(** ** One iteration of the loop *)

Lemma mode_dict_values (k m : string) :
  dict_get mode_dict k = Some m -> In m valid_modes.
Proof.
  cbn [dict_get mode_dict]. unfold valid_modes.
  destruct (String.eqb "1" k); [intros H; inversion H; simpl; tauto|].
  destruct (String.eqb "2" k); [intros H; inversion H; simpl; tauto|].
  destruct (String.eqb "3" k); [intros H; inversion H; simpl; tauto|].
  discriminate.
Qed.

(** [select_mode] returns one of the three modes, raises, or waits
    forever; it leaves the devices and the file alone. *)
Lemma select_mode_outcome (w : world) :
  (exists m w', select_mode w = Ret m w' /\ In m valid_modes /\
                same_devices w w') \/
  (exists e w', select_mode w = Raise e w' /\ same_devices w w') \/
  (exists w', select_mode w = Blocked w' /\ same_devices w w').
Proof.
  pose proof (select_mode_spec w) as Hs.
  destruct (first_digit (unread w)) as [[d rest]|].
  - destruct (dict_get mode_dict (String d "")) as [m|] eqn:Hd.
    + destruct Hs as (w' & Hr & _ & _ & Hdev). left. exists m, w'.
      split; [exact Hr|]. split; [now apply (mode_dict_values _ _ Hd)|exact Hdev].
    + destruct Hs as (w' & Hr & _ & _ & Hdev). right. left.
      now exists (KeyError (String d "")), w'.
  - destruct Hs as (w' & Hr & _ & Hdev). right. right. now exists w'.
Qed.

(** The poll at the top of an iteration answers [pending]. *)
Lemma poll_spec (tk : tick) (w : world) :
  exists w1,
    (operator_types (arrivals tk) ;;; keyboard_handler) w
    = Ret (pending tk w) w1 /\
    stdout w1 = stdout w /\ same_devices w w1 /\
    (pending tk w = false ->
     stdin_buf w1 = stdin_buf w /\ tty_queued w1 = [] /\
     tty_later w1 = skipn (arrivals tk) (tty_later w)).
Proof.
  unfold bind, operator_types, pending.
  set (w0 := set_stdin (stdin_buf w)
                       (tty_queued w ++ firstn (arrivals tk) (tty_later w))%list
                       (skipn (arrivals tk) (tty_later w)) w).
  change (tty_queued w ++ firstn (arrivals tk) (tty_later w))%list
    with (tty_queued w0).
  destruct (tty_queued w0) as [|x q] eqn:E.
  - exists w0. split; [now apply keyboard_handler_idle|].
    split; [reflexivity|]. split; [now repeat split|].
    intros _. now repeat split.
  - assert (Hq : tty_queued w0 <> []) by (rewrite E; discriminate).
    destruct (keyboard_handler_pending w0 Hq) as (line & w1 & Hk & _ & Ho & Hd).
    exists w1. split; [exact Hk|]. split; [exact Ho|].
    split; [|discriminate].
    destruct Hd as (?&?&?). repeat split; assumption.
Qed.

Lemma loop_body_unfold (tk : tick) (l : locals) (w : world) :
  loop_body tk l w =
  match (operator_types (arrivals tk) ;;; keyboard_handler) w with
  | Ret true w1 =>
      (mode <- select_mode ;;
       ret (mkLocals (l_name l) mode (l_start_time l))) w1
  | Ret false w1 =>
      (display_mode (l_mode l) ;;;
       orient <- get_orientation_degrees (t_orientation tk) ;;
       raw_acceleration <- get_accelerometer_raw (t_accel tk) ;;
       writerow (sample_row l orient raw_acceleration (t_time tk) (t_now tk)) ;;;
       print_row (sample_row l orient raw_acceleration (t_time tk) (t_now tk)) ;;;
       ret l) w1
  | Raise e w1 => Raise e w1
  | Blocked w1 => Blocked w1
  | Fuel => Fuel
  end.
Proof.
  unfold loop_body, bind.
  destruct (operator_types (arrivals tk) w) as [[] w0|e w0|w0|]; try reflexivity.
  destruct (keyboard_handler w0) as [[|] w1|e w1|w1|]; reflexivity.
Qed.

(** No input pending: the iteration renders, reads and appends one row. *)
Lemma loop_body_sample (tk : tick) (l : locals) (w : world) :
  pending tk w = false ->
  In (l_mode l) valid_modes -> file_open w ->
  exists w', loop_body tk l w = Ret l w' /\ sampled tk l w w'.
Proof.
  intros Hp Hm (f & Hf & Hc).
  destruct (poll_spec tk w) as (w1 & Hpoll & Ho1 & (Hh1 & Hx1 & Hf1) & Hin).
  destruct (Hin Hp) as (Hb1 & Hq1 & Hl1).
  rewrite Hp in Hpoll. rewrite loop_body_unfold, Hpoll.
  destruct (display_mode_known _ Hm) as (p & Hd & _ & _ & Hw).
  unfold bind at 1. rewrite Hw.
  unfold bind, get_orientation_degrees, get_accelerometer_raw, writerow.
  cbn [log_file set_hat hat_log pixels]. rewrite Hf1, Hf, Hc.
  eexists. split; [reflexivity|].
  exists p. split; [exact Hd|].
  unfold file_rows, file_open. cbn. rewrite Hf, Hh1, Ho1.
  repeat split; try assumption.
  - eexists. split; reflexivity.
  - now rewrite <- !app_assoc.
Qed.

(** Input pending: the iteration only selects a mode. *)
Lemma loop_body_switch (tk : tick) (l : locals) (w : world) :
  pending tk w = true ->
  exists w1,
    (operator_types (arrivals tk) ;;; keyboard_handler) w = Ret true w1 /\
    same_devices w w1 /\
    ((exists m w',
         select_mode w1 = Ret m w' /\ In m valid_modes /\ same_devices w w' /\
         loop_body tk l w = Ret (mkLocals (l_name l) m (l_start_time l)) w') \/
     (exists e w',
         select_mode w1 = Raise e w' /\ same_devices w w' /\
         loop_body tk l w = Raise e w') \/
     (exists w',
         select_mode w1 = Blocked w' /\ same_devices w w' /\
         loop_body tk l w = Blocked w')).
Proof.
  intros Hp.
  destruct (poll_spec tk w) as (w1 & Hpoll & _ & Hd1 & _).
  rewrite Hp in Hpoll. exists w1. split; [exact Hpoll|]. split; [exact Hd1|].
  rewrite loop_body_unfold, Hpoll. unfold bind.
  destruct (select_mode_outcome w1)
    as [(m & w' & Hs & Hm & Hd)|[(e & w' & Hs & Hd)|(w' & Hs & Hd)]];
    rewrite Hs.
  - left. exists m, w'. repeat split; try assumption;
      destruct Hd1 as (?&?&?), Hd as (?&?&?); congruence.
  - right. left. exists e, w'. repeat split;
      destruct Hd1 as (?&?&?), Hd as (?&?&?); congruence.
  - right. right. exists w'. repeat split;
      destruct Hd1 as (?&?&?), Hd as (?&?&?); congruence.
Qed.

(** While the operator types nothing, every iteration samples and the
    rows all carry the mode in force. *)
Lemma loop_quiet (ticks : list tick) : forall l w,
  In (l_mode l) valid_modes -> file_open w -> tty_queued w = [] ->
  Forall (fun tk => arrivals tk = 0) ticks ->
  exists w',
    loop ticks l w = Ret l w' /\
    file_rows w'
    = (file_rows w ++ map (fun tk => row_of l (tk, l_mode l)) ticks)%list /\
    tty_queued w' = [].
Proof.
  induction ticks as [|tk ticks IH]; intros l w Hm Hf Hq Ha.
  - exists w. cbn. now rewrite app_nil_r.
  - inversion Ha as [|? ? Ha0 Ha']; subst.
    assert (Hp : pending tk w = false).
    { unfold pending. now rewrite Hq, Ha0. }
    destruct (loop_body_sample tk l w Hp Hm Hf)
      as (w1 & Hb & p & _ & Hr1 & Hf1 & _ & _ & _ & _ & Hq1 & _).
    destruct (IH l w1 Hm Hf1 Hq1 Ha') as (w' & Hl & Hr & Hq').
    exists w'. cbn [loop]. unfold bind. rewrite Hb.
    split; [exact Hl|]. split; [|exact Hq'].
    rewrite Hr, Hr1. cbn [map]. now rewrite <- app_assoc.
Qed.

(** C1. In each pass of the loop, switching the mode and sampling exclude
    each other.  When input is pending the pass only selects a mode: no row
    is appended, and the display and the sensor are not touched, whatever
    the selection ends with.  When no input is pending the pass renders
    the pattern, reads the sensor and appends exactly one row, tagged (in
    its ninth cell) with the current mode, which it keeps.  After a switch
    the rows of the following passes all carry the new mode, for as long
    as nothing more is typed. *)
Theorem loop_iteration_exclusive (tk : tick) (l : locals) (w : world) :
  (pending tk w = true ->
   (forall w',
       final_world (loop_body tk l w) = Some w' ->
       file_rows w' = file_rows w /\ hat_log w' = hat_log w /\
       pixels w' = pixels w) /\
   (forall l' w',
       loop_body tk l w = Ret l' w' ->
       In (l_mode l') valid_modes /\
       l_name l' = l_name l /\ l_start_time l' = l_start_time l /\
       exists w1,
         (operator_types (arrivals tk) ;;; keyboard_handler) w = Ret true w1 /\
         select_mode w1 = Ret (l_mode l') w')) /\
  (pending tk w = false ->
   In (l_mode l) valid_modes -> file_open w ->
   exists w',
     loop_body tk l w = Ret l w' /\ sampled tk l w w' /\
     nth_error (row_of l (tk, l_mode l)) 8 = Some (PStr (l_mode l))) /\
  (forall l' w' ticks,
      pending tk w = true -> loop_body tk l w = Ret l' w' ->
      file_open w -> tty_queued w' = [] ->
      Forall (fun tk' => arrivals tk' = 0) ticks ->
      exists w'',
        loop (tk :: ticks) l w = Ret l' w'' /\
        file_rows w''
        = (file_rows w ++ map (fun tk' => row_of l (tk', l_mode l')) ticks)%list /\
        Forall (fun r => nth_error r 8 = Some (PStr (l_mode l')))
               (map (fun tk' => row_of l (tk', l_mode l')) ticks)).
Proof.
  assert (Hsw : pending tk w = true ->
                (forall w',
                    final_world (loop_body tk l w) = Some w' ->
                    same_devices w w') /\
                (forall l' w',
                    loop_body tk l w = Ret l' w' ->
                    In (l_mode l') valid_modes /\
                    l_name l' = l_name l /\ l_start_time l' = l_start_time l /\
                    exists w1,
                      (operator_types (arrivals tk) ;;; keyboard_handler) w
                      = Ret true w1 /\
                      select_mode w1 = Ret (l_mode l') w')).
  { intros Hp.
    destruct (loop_body_switch tk l w Hp)
      as (w1 & Hpoll & _ & [(m & w2 & Hs & Hm & Hd & Hb)
                           |[(e & w2 & Hs & Hd & Hb)|(w2 & Hs & Hd & Hb)]]);
      rewrite Hb; split.
    - intros w' H. now inversion H; subst.
    - intros l' w' H. inversion H; subst. cbn.
      repeat split; try assumption. now exists w1.
    - intros w' H. now inversion H; subst.
    - discriminate.
    - intros w' H. now inversion H; subst.
    - discriminate. }
  split; [|split].
  - intros Hp. destruct (Hsw Hp) as (H1 & H2). split; [|exact H2].
    intros w' Hw. destruct (H1 w' Hw) as (Hh & Hx & Hf).
    unfold file_rows. rewrite Hf. now repeat split.
  - intros Hp Hm Hf.
    destruct (loop_body_sample tk l w Hp Hm Hf) as (w' & Hb & Hs).
    exists w'. now repeat split.
  - intros l' w' ticks Hp Hb Hf Hq Ha.
    destruct (Hsw Hp) as (H1 & H2).
    destruct (H2 l' w' Hb) as (Hm & Hn & Ht & _).
    assert (Hd : same_devices w w') by (apply H1; now rewrite Hb).
    destruct Hd as (_ & _ & Hfile).
    assert (Hf' : file_open w').
    { destruct Hf as (f & Hf & Hc). exists f. now rewrite Hfile. }
    destruct (loop_quiet ticks l' w' Hm Hf' Hq Ha) as (w'' & Hl & Hr & _).
    exists w''. cbn [loop]. unfold bind. rewrite Hb.
    split; [exact Hl|].
    assert (E : map (fun tk' => row_of l' (tk', l_mode l')) ticks
                = map (fun tk' => row_of l (tk', l_mode l')) ticks).
    { apply map_ext. intros a. unfold row_of. now rewrite Hn, Ht. }
    split.
    + rewrite Hr, E. unfold file_rows. now rewrite Hfile.
    + apply Forall_forall. intros r Hr'. apply in_map_iff in Hr'.
      destruct Hr' as (a & <- & _). reflexivity.
Qed.

Lemma loop_iteration_exclusive_witness :
  let o := mkOrientation 0 0 0 in
  let a := mkAcceleration 0 0 1 in
  let d := mkDatetime 2024 3 7 9 5 1 in
  let l := mkLocals "Alice" "key" 0 in
  let w := mkWorld nl [] ["3"] [] [] []
                   (Some (mkFile "log.csv" [csv_header] false)) in
  (exists w', loop_body (mkTick 0 o a 1 d) l w = Ret l w' /\
              file_rows w'
              = [csv_header; row_of l (mkTick 0 o a 1 d, "key")]) /\
  (forall w', final_world (loop_body (mkTick 1 o a 1 d) l w) = Some w' ->
              file_rows w' = file_rows w).
Proof.
  cbv zeta. split.
  - destruct (loop_iteration_exclusive
                (mkTick 0 (mkOrientation 0 0 0) (mkAcceleration 0 0 1) 1
                        (mkDatetime 2024 3 7 9 5 1))
                (mkLocals "Alice" "key" 0)
                (mkWorld nl [] ["3"] [] [] []
                         (Some (mkFile "log.csv" [csv_header] false))))
      as (_ & H & _).
    destruct H as (w' & Hb & (p & _ & Hr & _) & _).
    + reflexivity.
    + right. now left.
    + eexists. split; reflexivity.
    + exists w'. split; [exact Hb|exact Hr].
  - destruct (loop_iteration_exclusive
                (mkTick 1 (mkOrientation 0 0 0) (mkAcceleration 0 0 1) 1
                        (mkDatetime 2024 3 7 9 5 1))
                (mkLocals "Alice" "key" 0)
                (mkWorld nl [] ["3"] [] [] []
                         (Some (mkFile "log.csv" [csv_header] false))))
      as (H & _).
    destruct (H eq_refl) as (H1 & _).
    intros w' Hw. now destruct (H1 w' Hw).
Defined.

(** ** Calls that leave part of the world alone *)

Section Frame.

Variable R : world -> world -> Prop.
Hypothesis R_refl : forall w, R w w.
Hypothesis R_trans : forall w1 w2 w3, R w1 w2 -> R w2 w3 -> R w1 w3.

Lemma keeps_ret {A : Type} (a : A) : keeps R (ret a).
Proof. intros w w' H. inversion H. apply R_refl. Qed.

Lemma keeps_bind {A B : Type} (m : M A) (k : A -> M B) :
  keeps R m -> (forall a, keeps R (k a)) -> keeps R (bind m k).
Proof.
  intros Hm Hk w w' H. unfold bind in H.
  destruct (m w) as [a w1|e w1|w1|] eqn:E.
  - apply (R_trans w w1 w').
    + apply Hm. now rewrite E.
    + now apply (Hk a).
  - apply Hm. now rewrite E.
  - apply Hm. now rewrite E.
  - discriminate.
Qed.

Lemma keeps_while {S : Type} (cond : S -> bool) (body : S -> M S) :
  (forall s, keeps R (body s)) ->
  forall fuel s, keeps R (while_ fuel cond body s).
Proof.
  intros Hb. induction fuel as [|fuel IH]; intros s w w' H;
    cbn [while_] in H; destruct (cond s).
  - discriminate.
  - inversion H. apply R_refl.
  - revert H. apply keeps_bind; [apply Hb | intros a; apply IH].
  - inversion H. apply R_refl.
Qed.

(** [set_name] only prints and reads lines from the terminal. *)
Lemma keeps_set_name :
  (forall s, keeps R (print s)) -> keeps R fetch_line ->
  keeps R set_name.
Proof.
  intros Hp Hf w w' H. unfold set_name in H. revert H.
  apply keeps_bind; [|intros st; apply keeps_ret].
  apply keeps_while. intros s. unfold set_name_body, input.
  apply keeps_bind; [|intros name; apply keeps_bind].
  - apply keeps_bind; [apply Hp | intros _; apply Hf].
  - apply keeps_bind; [apply Hp | intros _; apply Hf].
  - intros check. apply keeps_ret.
Qed.

End Frame.

Lemma set_name_devices : keeps same_devices set_name.
Proof.
  apply keeps_set_name.
  - apply same_devices_refl.
  - apply same_devices_trans.
  - intros s w w' H. inversion H. now repeat split.
  - intros w w' H. pose proof (fetch_line_spec w) as Hf.
    destruct (all_lines w) as [|l r].
    + rewrite Hf in H. inversion H. apply same_devices_refl.
    + destruct Hf as (w1 & E & _ & _ & _ & _ & Hd). rewrite E in H.
      now inversion H; subst.
Qed.

Lemma set_name_buffer : keeps same_buffer set_name.
Proof.
  apply keeps_set_name.
  - reflexivity.
  - unfold same_buffer. congruence.
  - intros s w w' H. now inversion H.
  - intros w w' H. pose proof (fetch_line_spec w) as Hf.
    destruct (all_lines w) as [|l r].
    + rewrite Hf in H. now inversion H.
    + destruct Hf as (w1 & E & _ & _ & Hb & _). rewrite E in H.
      now inversion H; subst.
Qed.

(** ** The rows of a run *)

Lemma subseq_nil_l {A : Type} (ys : list A) : subseq [] ys.
Proof. induction ys; constructor; assumption. Qed.

Lemma subseq_Forall {A : Type} (P : A -> Prop) (xs ys : list A) :
  subseq xs ys -> Forall P ys -> Forall P xs.
Proof.
  induction 1 as [|x xs ys _ IH|x xs ys _ IH]; intros HF;
    [constructor| |]; inversion HF; subst; auto.
Qed.

Lemma subseq_sorted {A : Type} (R : A -> A -> Prop) (xs ys : list A) :
  subseq xs ys -> StronglySorted R ys -> StronglySorted R xs.
Proof.
  induction 1 as [|x xs ys Hs IH|x xs ys Hs IH]; intros HS;
    [constructor| |]; inversion HS; subst; auto.
  constructor; [auto|]. now apply (subseq_Forall _ xs ys).
Qed.

Lemma subseq_map {A B : Type} (f : A -> B) (xs ys : list A) :
  subseq xs ys -> subseq (map f xs) (map f ys).
Proof. induction 1; cbn; constructor; assumption. Qed.

Lemma sensor_cells_app (a b : list hat_event) :
  sensor_cells (a ++ b) = (sensor_cells a ++ sensor_cells b)%list.
Proof.
  induction a as [|e a IH]; [reflexivity|].
  destruct e; cbn; now rewrite IH.
Qed.

(** The rows in the file after some passes of the loop: the rows that
    were there, followed by one row for each pass that sampled, in the
    order of the passes; the sensor was read for these rows and for no
    other. *)
Lemma loop_trace (ticks : list tick) : forall l w,
  In (l_mode l) valid_modes -> file_open w ->
  loop ticks l w <> Fuel /\
  forall w',
    final_world (loop ticks l w) = Some w' ->
    exists picks,
      subseq (map fst picks) ticks /\
      Forall (fun p => In (snd p) valid_modes) picks /\
      file_rows w' = (file_rows w ++ map (row_of l) picks)%list /\
      sensor_cells (hat_log w')
      = (sensor_cells (hat_log w)
         ++ List.concat (map (fun p => firstn 6 (row_of l p)) picks))%list /\
      file_open w'.
Proof.
  induction ticks as [|tk ticks IH]; intros l w Hm Hf.
  - split; [discriminate|]. intros w' H. inversion H; subst.
    exists []. cbn. rewrite !app_nil_r.
    repeat split; try constructor; assumption.
  - cbn [loop]. unfold bind.
    destruct (pending tk w) eqn:Hp.
    + destruct (loop_body_switch tk l w Hp)
        as (w1 & _ & _ & [(m & w2 & _ & Hm2 & Hd & Hb)
                         |[(e & w2 & _ & Hd & Hb)|(w2 & _ & Hd & Hb)]]);
        rewrite Hb; destruct Hd as (Hh & Hx & Hfile);
        assert (Hf2 : file_open w2)
          by (destruct Hf as (f & E & C); exists f; now rewrite Hfile).
      * destruct (IH (mkLocals (l_name l) m (l_start_time l)) w2 Hm2 Hf2)
          as (Hnf & Ht).
        split; [exact Hnf|]. intros w' H.
        destruct (Ht w' H) as (picks & Hs & Hv & Hr & Hc & Ho).
        exists picks. split; [now constructor|]. split; [exact Hv|].
        unfold file_rows in *. rewrite Hfile in Hr. rewrite Hh in Hc.
        split; [exact Hr|]. split; [exact Hc|exact Ho].
      * split; [discriminate|]. intros w' H. inversion H; subst.
        exists []. cbn. rewrite !app_nil_r. unfold file_rows.
        rewrite Hfile, Hh. repeat split; try constructor; try assumption.
        apply subseq_nil_l.
      * split; [discriminate|]. intros w' H. inversion H; subst.
        exists []. cbn. rewrite !app_nil_r. unfold file_rows.
        rewrite Hfile, Hh. repeat split; try constructor; try assumption.
        apply subseq_nil_l.
    + destruct (loop_body_sample tk l w Hp Hm Hf)
        as (w1 & Hb & p & _ & Hr1 & Hf1 & Hh1 & _).
      rewrite Hb. destruct (IH l w1 Hm Hf1) as (Hnf & Ht).
      split; [exact Hnf|]. intros w' H.
      destruct (Ht w' H) as (picks & Hs & Hv & Hr & Hc & Ho).
      exists ((tk, l_mode l) :: picks).
      split; [cbn; now constructor|].
      split; [constructor; [exact Hm|exact Hv]|].
      split; [rewrite Hr, Hr1; cbn [map]; now rewrite <- app_assoc|].
      split; [|exact Ho].
      rewrite Hc, Hh1, sensor_cells_app. cbn [map List.concat].
      rewrite <- app_assoc. reflexivity.
Qed.

Lemma set_name_total (w : world) :
  set_name w <> Fuel /\ forall e w', set_name w <> Raise e w'.
Proof.
  pose proof (set_name_loop_result (S (lines_left w)) ("N", "") w
                                   (Nat.lt_succ_diag_r _)) as Hl.
  unfold set_name, bind.
  destruct (while_ (S (lines_left w)) name_rejected set_name_body ("N", "") w)
    as [[check name] w1|e1 w1|w1|]; try contradiction;
    split; try discriminate; intros; discriminate.
Qed.

Lemma close_log_rows (w : world) :
  file_rows (close_log w) = file_rows w /\ hat_log (close_log w) = hat_log w.
Proof. destruct w as [b q lt o lg px [f|] fs]; split; reflexivity. Qed.

Lemma log_orientation_unfold (now0 : datetime) (t0 : Q) (ticks : list tick)
    (w0 : world) :
  log_orientation now0 t0 ticks w0 =
  match set_name w0 with
  | Ret name w1 =>
      match select_mode w1 with
      | Ret mode w2 =>
          match open_error w2 (file_path name now0) with
          | Some e => Raise e w2
          | None =>
              match
                loop ticks (mkLocals name mode t0)
                     (set_log_file
                        (Some (mkFile (file_path name now0) [csv_header] false))
                        w2)
              with
              | Raise e w' => Raise e (close_log w')
              | o => o
              end
          end
      | Raise e w2 => Raise e w2
      | Blocked w2 => Blocked w2
      | Fuel => Fuel
      end
  | Raise e w1 => Raise e w1
  | Blocked w1 => Blocked w1
  | Fuel => Fuel
  end.
Proof.
  unfold log_orientation, bind.
  destruct (set_name w0) as [name w1|e w1|w1|]; try reflexivity.
  destruct (select_mode w1) as [mode w2|e w2|w2|]; try reflexivity.
  unfold open_w.
  destruct (open_error w2 (file_path name now0)); reflexivity.
Qed.

(** Whether a run gets as far as an open file: Setup returned a name and
    a mode, and the file system let [open] create the path. *)
Lemma log_orientation_started (now0 : datetime) (t0 : Q) (ticks : list tick)
    (w0 : world) (name : string) (w1 : world) (mode : string) (w2 : world) :
  set_name w0 = Ret name w1 -> select_mode w1 = Ret mode w2 ->
  open_error w2 (file_path name now0) = None ->
  log_orientation now0 t0 ticks w0
  = match
      loop ticks (mkLocals name mode t0)
           (set_log_file
              (Some (mkFile (file_path name now0) [csv_header] false)) w2)
    with
    | Raise e w' => Raise e (close_log w')
    | o => o
    end.
Proof.
  intros Hn Hs Ho. now rewrite log_orientation_unfold, Hn, Hs, Ho.
Qed.

(** The rows of the session file at any point of a run: none while the
    file is not yet open; afterwards the header, then one row per sampling
    pass, in the order of the passes. *)
Lemma log_orientation_trace (now0 : datetime) (t0 : Q) (ticks : list tick)
    (w0 : world) :
  log_orientation now0 t0 ticks w0 <> Fuel /\
  forall w',
    final_world (log_orientation now0 t0 ticks w0) = Some w' ->
    (same_devices w0 w' /\
     forall name w1 mode w2,
       set_name w0 = Ret name w1 -> select_mode w1 = Ret mode w2 ->
       open_error w2 (file_path name now0) = None -> False) \/
    exists name w1 mode w2 picks,
      set_name w0 = Ret name w1 /\ select_mode w1 = Ret mode w2 /\
      open_error w2 (file_path name now0) = None /\
      In mode valid_modes /\
      subseq (map fst picks) ticks /\
      Forall (fun p => In (snd p) valid_modes) picks /\
      file_rows w' = csv_header :: map (row_of (mkLocals name mode t0)) picks /\
      sensor_cells (hat_log w')
      = (sensor_cells (hat_log w0)
         ++ List.concat (map (fun p => firstn 6
                                         (row_of (mkLocals name mode t0) p))
                             picks))%list.
Proof.
  rewrite log_orientation_unfold.
  destruct (set_name_total w0) as (Hnf & Hnr).
  pose proof (set_name_devices w0) as Hk.
  destruct (set_name w0) as [name w1|e w1|w1|] eqn:E1.
  2:{ exfalso. now apply (Hnr e w1). }
  2:{ split; [discriminate|]. intros w' H. left.
      split; [apply Hk; exact H|]. intros; discriminate. }
  2:{ now contradiction Hnf. }
  assert (Hd1 : same_devices w0 w1) by (now apply Hk).
  destruct (select_mode_outcome w1)
    as [(m & w2 & Hs & Hm & Hd2)|[(e & w2 & Hs & Hd2)|(w2 & Hs & Hd2)]];
    rewrite Hs.
  2:{ split; [discriminate|]. intros w' H. inversion H; subst. left.
      split; [now apply (same_devices_trans w0 w1 w')|].
      intros ? ? ? ? Hn Hm2; congruence. }
  2:{ split; [discriminate|]. intros w' H. inversion H; subst. left.
      split; [now apply (same_devices_trans w0 w1 w')|].
      intros ? ? ? ? Hn Hm2; congruence. }
  assert (Hd : same_devices w0 w2)
    by (now apply (same_devices_trans w0 w1 w2)).
  destruct (open_error w2 (file_path name now0)) as [e|] eqn:Eo.
  { split; [discriminate|]. intros w' H. inversion H; subst. left.
    split; [exact Hd|]. intros ? ? ? ? Hn Hm2 Ho.
    injection Hn as <- <-. rewrite Hs in Hm2. injection Hm2 as <- <-.
    congruence. }
  set (w4 := set_log_file _ w2).
  assert (Hf4 : file_open w4) by (eexists; split; reflexivity).
  assert (Hr4 : file_rows w4 = [csv_header]) by reflexivity.
  assert (Hh4 : hat_log w4 = hat_log w0) by (destruct Hd as (Hh & _); exact Hh).
  destruct (loop_trace ticks (mkLocals name m t0) w4 Hm Hf4) as (Hnfl & Ht).
  destruct (loop ticks (mkLocals name m t0) w4) as [l w5|e w5|w5|] eqn:El;
    [| | |now contradiction Hnfl]; (split; [discriminate|]);
    intros w' H; inversion H; subst w'; right;
    destruct (Ht w5 eq_refl) as (picks & Hsub & Hv & Hr & Hc & _);
    exists name, w1, m, w2, picks;
    (split; [reflexivity|]); (split; [exact Hs|]); (split; [exact Eo|]);
    (split; [exact Hm|]); (split; [exact Hsub|]); (split; [exact Hv|]).
  - rewrite Hr, Hc, Hr4, Hh4. now split.
  - destruct (close_log_rows w5) as (-> & ->).
    rewrite Hr, Hc, Hr4, Hh4. now split.
  - rewrite Hr, Hc, Hr4, Hh4. now split.
Qed.

(** ** The session file *)

Lemma decimal_digits_small (f n : nat) :
  n < 10 -> decimal_digits (S f) n = String (digit n) "".
Proof.
  intros H. cbn [decimal_digits].
  now rewrite (proj2 (Nat.ltb_lt n 10) H).
Qed.

Lemma decimal_digits_step (f n : nat) :
  10 <= n ->
  decimal_digits (S f) n = decimal_digits f (n / 10) ++ String (digit n) "".
Proof.
  intros H. cbn [decimal_digits].
  now rewrite (proj2 (Nat.ltb_ge n 10) H).
Qed.

(** A year of four digits is rendered as these four digits. *)
Lemma decimal_four (n : nat) : 1000 <= n < 100 * 100 -> decimal n = pad4 n.
Proof.
  intros [Hl Hu]. unfold decimal.
  assert (H1 : 100 <= n / 10 < 1000).
  { split; [apply Nat.div_le_lower_bound; lia
           |apply Nat.Div0.div_lt_upper_bound; lia]. }
  assert (H2 : 10 <= n / 10 / 10 < 100).
  { split; [apply Nat.div_le_lower_bound; lia
           |apply Nat.Div0.div_lt_upper_bound; lia]. }
  assert (H3 : n / 10 / 10 / 10 < 10)
    by (apply Nat.Div0.div_lt_upper_bound; lia).
  destruct n as [|[|[|n]]]; try lia.
  rewrite decimal_digits_step by lia.
  rewrite decimal_digits_step by lia.
  rewrite decimal_digits_step by lia.
  rewrite decimal_digits_small by exact H3.
  cbn [append]. unfold pad4, pad2.
  set (m := S (S (S n))) in *.
  assert (Q2 : m / 10 / 10 = m / 100) by (now rewrite Nat.Div0.div_div).
  assert (Q3 : m / 10 / 10 / 10 = m / 1000)
    by (now rewrite !Nat.Div0.div_div).
  now rewrite Q3, Q2.
Qed.

(** The time stamp of a row, for a clock that shows a year of four
    digits. *)
Lemma stamp_four_digits (d : datetime) :
  1000 <= year d < 100 * 100 ->
  strftime "%m/%d/%Y_%H:%M:%S" d
  = pad2 (month d) ++ "/" ++ pad2 (day d) ++ "/" ++ pad4 (year d) ++ "_"
    ++ pad2 (hour d) ++ ":" ++ pad2 (minute d) ++ ":" ++ pad2 (second d).
Proof.
  intros H. rewrite <- (decimal_four (year d) H).
  unfold pad2. reflexivity.
Qed.

(** C3. In every session, while the clock shows a year of four digits:
    when Setup returned a name and a mode and the file could be created,
    the file holds the fixed header roll, pitch, yaw, x, y, z, timestamp,
    runtime, mode, name as its first row and nowhere else, and after it
    one row for each pass that sampled, in the order of the passes.  The
    ten cells of such a row are, in this order, the roll, pitch and yaw
    and the x, y and z read in that pass, the clock of that pass as
    MM/DD/YYYY_HH:MM:SS, its time reading minus the start reading, one of
    the three mode names, and the name that [set_name] returned.  In any
    other session no row is written. *)
Theorem session_file_layout (now0 : datetime) (t0 : Q) (ticks : list tick)
    (w0 w' : world) :
  Forall (fun tk => 1000 <= year (t_now tk) < 100 * 100) ticks ->
  final_world (log_orientation now0 t0 ticks w0) = Some w' ->
  (log_file w' = log_file w0 /\
   forall name w1 mode w2,
     set_name w0 = Ret name w1 -> select_mode w1 = Ret mode w2 ->
     open_error w2 (file_path name now0) = None -> False) \/
  exists name w1 mode w2 picks,
    set_name w0 = Ret name w1 /\ select_mode w1 = Ret mode w2 /\
    open_error w2 (file_path name now0) = None /\
    subseq (map fst picks) ticks /\
    Forall (fun p => In (snd p) valid_modes) picks /\
    csv_header = map PStr ["roll"; "pitch"; "yaw"; "x"; "y"; "z";
                           "timestamp"; "runtime"; "mode"; "name"] /\
    ~ In csv_header (tl (file_rows w')) /\
    file_rows w'
    = csv_header
        :: map (fun p =>
                  let tk := fst p in
                  [PStrOf (roll (t_orientation tk));
                   PStrOf (pitch (t_orientation tk));
                   PStrOf (yaw (t_orientation tk));
                   PStrOf (acc_x (t_accel tk));
                   PStrOf (acc_y (t_accel tk));
                   PStrOf (acc_z (t_accel tk));
                   PStr (pad2 (month (t_now tk)) ++ "/"
                         ++ pad2 (day (t_now tk)) ++ "/"
                         ++ pad4 (year (t_now tk)) ++ "_"
                         ++ pad2 (hour (t_now tk)) ++ ":"
                         ++ pad2 (minute (t_now tk)) ++ ":"
                         ++ pad2 (second (t_now tk)));
                   PFloat (t_time tk - t0)%Q;
                   PStr (snd p);
                   PStr name])
               picks.
Proof.
  intros Hy H.
  destruct (log_orientation_trace now0 t0 ticks w0) as (_ & Ht).
  destruct (Ht w' H)
    as [((_ & _ & Hf) & Hno)
       |(name & w1 & mode & w2 & picks & Hn & Hs & Ho & _ & Hsub & Hv & Hr & _)];
    [left; now split|right].
  exists name, w1, mode, w2, picks.
  split; [exact Hn|]. split; [exact Hs|]. split; [exact Ho|].
  split; [exact Hsub|]. split; [exact Hv|]. split; [reflexivity|].
  rewrite Hr. cbn [tl]. split.
  - intros Hin. apply in_map_iff in Hin. destruct Hin as (p & Hp & _).
    discriminate Hp.
  - f_equal. apply map_ext_in. intros [tk m] Hin.
    assert (Hyk : 1000 <= year (t_now tk) < 100 * 100).
    { pose proof (subseq_Forall _ _ _ Hsub Hy) as Hall.
      rewrite Forall_forall in Hall. apply Hall.
      apply in_map_iff. now exists (tk, m). }
    unfold row_of, sample_row.
    cbn [fst snd l_name l_mode l_start_time].
    now rewrite (stamp_four_digits (t_now tk) Hyk).
Qed.

Lemma session_file_layout_witness :
  exists w',
    final_world
      (log_orientation (mkDatetime 2024 3 7 9 5 1) 0
         [mkTick 0 (mkOrientation 1 2 3) (mkAcceleration 0 0 1) 4
                 (mkDatetime 2024 3 7 9 5 2)]
         (initial ["Alice"; "yes"; "2"] [])) = Some w' /\
    file_rows w'
    = [csv_header;
       [PStrOf 1; PStrOf 2; PStrOf 3; PStrOf 0; PStrOf 0; PStrOf 1;
        PStr "03/07/2024_09:05:02"; PFloat (4 - 0)%Q; PStr "key";
        PStr "Alice"]].
Proof.
  set (tk := mkTick 0 (mkOrientation 1 2 3) (mkAcceleration 0 0 1) 4
                    (mkDatetime 2024 3 7 9 5 2)).
  set (run := log_orientation _ _ _ _).
  assert (H : exists w', final_world run = Some w')
    by (eexists; vm_compute; reflexivity).
  destruct H as (w' & H). exists w'. split; [exact H|].
  assert (Hy : Forall (fun tk => 1000 <= year (t_now tk) < 100 * 100) [tk])
    by (repeat constructor; cbn; lia).
  destruct (session_file_layout _ _ _ _ w' Hy H)
    as [(Hf & _)|(name & w1 & mode & w2 & picks & _ & _ & _ & _ & _ & _ & _ & Hr)].
  - exfalso. vm_compute in H. inversion H; subst. discriminate Hf.
  - vm_compute in H. inversion H; subst. reflexivity.
Defined.

Example strftime_stamp :
  strftime "%m/%d/%Y_%H:%M:%S" (mkDatetime 2024 3 7 9 5 2)
  = "03/07/2024_09:05:02".
Proof. reflexivity. Qed.

Example strftime_file_name :
  file_path "Alice" (mkDatetime 2024 3 7 9 5 2)
  = "./log/Alice_log_03_07_2024_09_05_02.csv".
Proof. reflexivity. Qed.

(** ** Elapsed time *)

Lemma shift_sorted (t0 : Q) (ts : list Q) :
  StronglySorted Qle ts ->
  StronglySorted Qle (map (fun t => t - t0)%Q ts).
Proof.
  induction 1 as [|t ts _ IH Hall]; cbn; constructor; [exact IH|].
  apply Forall_map. revert Hall. apply Forall_impl. intros a Ha. lra.
Qed.

Lemma shift_nonneg (t0 : Q) (ts : list Q) :
  Forall (Qle t0) ts -> Forall (fun x => (0 <= x)%Q) (map (fun t => t - t0)%Q ts).
Proof.
  intros H. apply Forall_map. revert H. apply Forall_impl. intros a Ha. lra.
Qed.

(** C2, as the code has it.  The rows of a session are appended in the
    order in which the samples were taken, one row per sample, none
    dropped and none repeated: the sampled passes are a subsequence of the
    passes, and the sensor values of the rows, read in row order, are the
    values the sensor returned, in the order of the reads.  Each runtime
    is the clock reading of its pass minus the start reading.  So the
    runtimes never decrease, and none is negative, in every session in
    which the readings of [time.time()] never decrease from the start
    reading on. *)
Theorem runtime_order (now0 : datetime) (t0 : Q) (ticks : list tick)
    (w0 w' : world) :
  final_world (log_orientation now0 t0 ticks w0) = Some w' ->
  same_devices w0 w' \/
  exists samples sampled_ticks,
    file_rows w' = csv_header :: samples /\
    subseq sampled_ticks ticks /\
    map (firstn 6) samples
    = map (fun tk => sensor_cells [GetOrientation (t_orientation tk);
                                   GetAccelRaw (t_accel tk)]) sampled_ticks /\
    sensor_cells (hat_log w')
    = (sensor_cells (hat_log w0) ++ List.concat (map (firstn 6) samples))%list /\
    map runtime_of samples
    = map (fun tk => Some (t_time tk - t0)%Q) sampled_ticks /\
    (StronglySorted Qle (t0 :: map t_time ticks) ->
     StronglySorted Qle (map (fun tk => t_time tk - t0)%Q sampled_ticks) /\
     Forall (fun x => (0 <= x)%Q)
            (map (fun tk => t_time tk - t0)%Q sampled_ticks)).
Proof.
  intros H.
  destruct (log_orientation_trace now0 t0 ticks w0) as (_ & Ht).
  destruct (Ht w' H)
    as [(Hd & _)
       |(name & w1 & mode & w2 & picks & _ & _ & _ & _ & Hsub & _ & Hr & Hc)];
    [now left|right].
  exists (map (row_of (mkLocals name mode t0)) picks), (map fst picks).
  split; [exact Hr|]. split; [exact Hsub|].
  split; [now rewrite !map_map|].
  split; [rewrite Hc; now rewrite map_map|].
  split; [now rewrite !map_map|].
  intros Hs. inversion Hs as [|t ts Hsorted Hge]; subst.
  pose proof (subseq_map t_time _ _ Hsub) as Hsub'.
  rewrite <- (map_map t_time (fun t => (t - t0)%Q)).
  split.
  - apply shift_sorted. now apply (subseq_sorted _ _ _ Hsub').
  - apply shift_nonneg. now apply (subseq_Forall _ _ _ Hsub').
Qed.

Lemma runtime_order_witness :
  exists w' samples,
    final_world
      (log_orientation (mkDatetime 2024 3 7 9 5 1) 5
         [mkTick 0 (mkOrientation 1 2 3) (mkAcceleration 0 0 1) 6
                 (mkDatetime 2024 3 7 9 5 2);
          mkTick 0 (mkOrientation 1 2 4) (mkAcceleration 0 0 1) 8
                 (mkDatetime 2024 3 7 9 5 4)]
         (initial ["Alice"; "yes"; "2"] [])) = Some w' /\
    file_rows w' = csv_header :: samples /\
    exists runtimes,
      map runtime_of samples = map Some runtimes /\
      StronglySorted Qle runtimes /\ Forall (fun x => (0 <= x)%Q) runtimes.
Proof.
  set (run := log_orientation _ _ _ _).
  assert (H : exists w', final_world run = Some w')
    by (eexists; vm_compute; reflexivity).
  destruct H as (w' & H).
  destruct (runtime_order _ _ _ _ w' H)
    as [(_ & _ & Hf)|(samples & st & Hr & _ & _ & _ & Hrt & Hs)].
  - exfalso. vm_compute in H. inversion H; subst. discriminate Hf.
  - exists w', samples. split; [exact H|]. split; [exact Hr|].
    exists (map (fun tk => (t_time tk - 5)%Q) st).
    split; [now rewrite Hrt, map_map|].
    apply Hs. cbn. repeat constructor; unfold Qle; cbn; lia.
Defined.

(** C2, as stated, fails: [time.time()] is the wall clock, and the wall
    clock can be set back.  Here it reads 5 when the session starts, 3 at
    the first sample and 2 at the second: the first runtime is negative
    and the second is smaller than the first. *)
Lemma runtime_follows_wall_clock :
  let d := mkDatetime 2024 3 7 9 5 1 in
  let o := mkOrientation 1 2 3 in
  let a := mkAcceleration 0 0 1 in
  let run := log_orientation d 5 [mkTick 0 o a 3 d; mkTick 0 o a 2 d]
                             (initial ["Alice"; "yes"; "2"] []) in
  exists l w' r1 r2,
    run = Ret l w' /\
    map runtime_of (tl (file_rows w')) = [Some r1; Some r2] /\
    (r1 < 0)%Q /\ (r2 < r1)%Q /\
    ~ StronglySorted Qle [r1; r2].
Proof.
  cbv zeta. eexists. eexists. eexists. eexists.
  split; [vm_compute; reflexivity|].
  split; [vm_compute; reflexivity|].
  split; [reflexivity|]. split; [reflexivity|].
  intros Hs. inversion Hs as [|? ? _ Hall]; subst.
  inversion Hall as [|? ? Hle _]; subst.
  unfold Qle in Hle. cbn in Hle. lia.
Qed.

(** ** The buffer of [sys.stdin] during a session *)

Lemma while_invariant {S : Type} (P : S -> world -> Prop) (cond : S -> bool)
    (body : S -> M S) :
  (forall s w s' w', P s w -> cond s = true -> body s w = Ret s' w' -> P s' w') ->
  forall fuel s w s' w',
    P s w -> while_ fuel cond body s w = Ret s' w' ->
    P s' w' /\ cond s' = false.
Proof.
  intros Hb. induction fuel as [|fuel IH]; intros s w s' w' HP H;
    cbn [while_] in H; destruct (cond s) eqn:Hc; try discriminate.
  - inversion H; subst. now split.
  - unfold bind in H. destruct (body s w) as [s1 w1|e w1|w1|] eqn:E;
      try discriminate.
    apply (IH s1 w1); [|exact H]. now apply (Hb s w).
  - inversion H; subst. now split.
Qed.

(** After [read(1)] the buffer is still the tail of a delivered line, and
    it still holds the line end unless that was the character read. *)
Lemma stdin_read1_tail (w : world) (c : string) (w' : world) :
  stdin_read1 w = Ret c w' -> line_tail (stdin_buf w) ->
  line_tail (stdin_buf w') /\ (c = nl \/ holds_line_end w').
Proof.
  destruct w as [buf q lt out lg px f]. unfold stdin_read1, holds_line_end.
  cbn [stdin_buf]. destruct buf as [|x b].
  - intros H _. unfold bind, fetch_line in H. cbn in H.
    destruct q as [|l q]; [destruct lt as [|l lt]; [discriminate|]|];
      destruct l as [|y l']; cbn in H; inversion H; subst; cbn;
      (split; [now left | now left])
      || (split; [right; now exists l' | right; now exists l']).
  - intros H Ht. inversion H; subst. cbn.
    destruct Ht as [Ht|(s & Ht)]; [discriminate|].
    destruct s as [|y s']; cbn in Ht; inversion Ht; subst.
    + split; [now left | now left].
    + split; [right; now exists s' | right; now exists s'].
Qed.

(** A mode selection that returns leaves a line end in the buffer: the
    rest of the line in which it found its digit. *)
Lemma select_mode_leaves_line_end (w : world) (m : string) (w' : world) :
  line_tail (stdin_buf w) -> select_mode w = Ret m w' -> holds_line_end w'.
Proof.
  intros Ht H. unfold select_mode in H. unfold bind at 1 in H.
  set (w0 := set_stdout (stdout w ++ [OutText mode_prompt])%list w) in H.
  change (print mode_prompt w) with (Ret tt w0) in H. cbv iota in H.
  unfold bind at 1 in H.
  destruct (stdin_read1 w0) as [c w1|e w1|w1|] eqn:E1; try discriminate.
  destruct (stdin_read1_tail w0 c w1 E1 Ht) as (Ht1 & Hc1).
  unfold bind at 1 in H.
  destruct (while_ (S (String.length (unread w)))
                   (fun c => Bool.eqb (isdigit c) false)
                   (fun _ => stdin_read1) c w1) as [d w2|e w2|w2|] eqn:E2;
    try discriminate.
  destruct (while_invariant
              (fun c w => line_tail (stdin_buf w) /\ (c = nl \/ holds_line_end w))
              (fun c => Bool.eqb (isdigit c) false) (fun _ => stdin_read1))
    with (fuel := S (String.length (unread w))) (s := c) (w := w1)
         (s' := d) (w' := w2) as ((_ & Hd) & Hcond);
    [|now split|exact E2|].
  - intros s wa s' wb (Hta & _) _ Hr. now apply (stdin_read1_tail wa).
  - unfold bind, getitem in H.
    destruct (dict_get mode_dict d); [|discriminate].
    inversion H; subst.
    destruct Hd as [->|Hd]; [discriminate Hcond|exact Hd].
Qed.

Lemma split_line_tail (s line rest : string) :
  split_line (s ++ nl) = Some (line, rest) -> line_tail rest.
Proof.
  revert line rest. induction s as [|a s IH]; cbn; intros line rest H.
  - inversion H. now left.
  - destruct (Ascii.eqb a newline).
    + inversion H; subst. right. now exists s.
    + destruct (split_line (s ++ nl)) as [[l r]|] eqn:E; [|discriminate].
      inversion H; subst. now apply (IH l).
Qed.

(** With a line end in the buffer, a pending poll discards buffered input
    only: the queued lines are all still there for the mode selection. *)
Lemma keyboard_handler_stale (w : world) :
  holds_line_end w -> tty_queued w <> [] ->
  exists w',
    keyboard_handler w = Ret true w' /\
    tty_queued w' = tty_queued w /\ tty_later w' = tty_later w /\
    line_tail (stdin_buf w').
Proof.
  intros (s & Hs) Hq.
  destruct (split_line_chunk s) as (line & rest & Hl).
  unfold chunk in Hl. rewrite <- Hs in Hl.
  exists (set_stdin rest (tty_queued w) (tty_later w) w).
  split; [exact (keyboard_handler_buffered w line rest Hq Hl)|].
  repeat split. cbn. apply (split_line_tail s line). now rewrite <- Hs.
Qed.

(** Every pass of the loop that returns keeps a line end in the buffer. *)
Lemma loop_body_line_end (tk : tick) (l : locals) (w : world) (l' : locals)
    (w' : world) :
  holds_line_end w -> In (l_mode l) valid_modes -> file_open w ->
  loop_body tk l w = Ret l' w' -> holds_line_end w'.
Proof.
  intros Hh Hm Hf Hb.
  destruct (pending tk w) eqn:Hp.
  - rewrite loop_body_unfold in Hb. unfold bind at 1 in Hb.
    unfold operator_types in Hb.
    set (w0 := set_stdin _ _ _ w) in Hb.
    assert (Hh0 : holds_line_end w0) by exact Hh.
    assert (Hq0 : tty_queued w0 <> []).
    { unfold pending in Hp. cbn.
      destruct (tty_queued w ++ firstn (arrivals tk) (tty_later w))%list;
        [discriminate Hp|discriminate]. }
    destruct (keyboard_handler_stale w0 Hh0 Hq0) as (w1 & Hk & _ & _ & Ht1).
    rewrite Hk in Hb. unfold bind in Hb.
    destruct (select_mode w1) as [m w2|e w2|w2|] eqn:Es; try discriminate.
    inversion Hb; subst. now apply (select_mode_leaves_line_end w1 m).
  - destruct (loop_body_sample tk l w Hp Hm Hf)
      as (w1 & Hb1 & p & _ & _ & _ & _ & _ & _ & Hbuf & _).
    rewrite Hb in Hb1. inversion Hb1; subst.
    destruct Hh as (s & Hs). exists s. now rewrite Hbuf.
Qed.

Lemma loop_body_inv (tk : tick) (l : locals) (w : world) (l' : locals)
    (w' : world) :
  In (l_mode l) valid_modes -> file_open w ->
  loop_body tk l w = Ret l' w' ->
  In (l_mode l') valid_modes /\ file_open w'.
Proof.
  intros Hm Hf Hb. destruct (pending tk w) eqn:Hp.
  - destruct (loop_body_switch tk l w Hp)
      as (w1 & _ & _ & [(m & w2 & _ & Hm2 & Hd & Hb2)
                       |[(e & w2 & _ & _ & Hb2)|(w2 & _ & _ & Hb2)]]);
      rewrite Hb in Hb2; inversion Hb2; subst.
    split; [exact Hm2|]. destruct Hf as (f & E & C), Hd as (_ & _ & Hfile).
    exists f. now rewrite Hfile.
  - destruct (loop_body_sample tk l w Hp Hm Hf)
      as (w1 & Hb1 & p & _ & _ & Hf1 & _).
    rewrite Hb in Hb1. inversion Hb1; subst. now split.
Qed.

Lemma loop_line_end (ticks : list tick) : forall l w l' w',
  holds_line_end w -> In (l_mode l) valid_modes -> file_open w ->
  loop ticks l w = Ret l' w' ->
  holds_line_end w' /\ In (l_mode l') valid_modes /\ file_open w'.
Proof.
  induction ticks as [|tk ticks IH]; intros l w l' w' Hh Hm Hf H.
  - inversion H; subst. now repeat split.
  - cbn [loop] in H. unfold bind in H.
    destruct (loop_body tk l w) as [l1 w1|e w1|w1|] eqn:E; try discriminate.
    destruct (loop_body_inv tk l w l1 w1 Hm Hf E) as (Hm1 & Hf1).
    apply (IH l1 w1); try assumption.
    now apply (loop_body_line_end tk l w l1 w1).
Qed.

(** In a session started with an empty buffer, the loop always finds a
    line end in the buffer of [sys.stdin]: the rest of the line on which
    the last mode was selected. *)
Lemma session_line_end (now0 : datetime) (t0 : Q) (ticks : list tick)
    (w0 : world) (l : locals) (w : world) :
  stdin_buf w0 = "" ->
  log_orientation now0 t0 ticks w0 = Ret l w ->
  holds_line_end w /\ In (l_mode l) valid_modes /\ file_open w.
Proof.
  intros Hb H. rewrite log_orientation_unfold in H.
  pose proof (set_name_buffer w0) as Hk.
  destruct (set_name w0) as [name w1|e w1|w1|] eqn:E1; try discriminate.
  assert (Hb1 : stdin_buf w1 = "") by (rewrite <- Hb; now apply Hk).
  destruct (select_mode_outcome w1)
    as [(m & w2 & Hs & Hm & _)|[(e & w2 & Hs & _)|(w2 & Hs & _)]];
    rewrite Hs in H; try discriminate.
  assert (Hh2 : holds_line_end w2).
  { apply (select_mode_leaves_line_end w1 m); [|exact Hs].
    left. exact Hb1. }
  destruct (open_error w2 (file_path name now0)); [discriminate|].
  set (w4 := set_log_file _ w2) in H.
  destruct (loop ticks (mkLocals name m t0) w4) as [l5 w5|e w5|w5|] eqn:El;
    try discriminate.
  inversion H; subst.
  apply (loop_line_end ticks (mkLocals name m t0) w4); try assumption.
  eexists. split; reflexivity.
Qed.

(** Hence, in such a session, the poll of a pass that finds input pending
    discards buffered input only, and every line the operator typed is
    still queued when the mode selection starts. *)
Lemma session_poll_keeps_typed_lines (now0 : datetime) (t0 : Q)
    (ticks : list tick) (w0 : world) (l : locals) (w : world) (tk : tick) :
  stdin_buf w0 = "" ->
  log_orientation now0 t0 ticks w0 = Ret l w ->
  pending tk w = true ->
  exists w1,
    (operator_types (arrivals tk) ;;; keyboard_handler) w = Ret true w1 /\
    tty_queued w1 = (tty_queued w ++ firstn (arrivals tk) (tty_later w))%list /\
    tty_later w1 = skipn (arrivals tk) (tty_later w).
Proof.
  intros Hb H Hp.
  destruct (session_line_end now0 t0 ticks w0 l w Hb H) as (Hh & _).
  unfold bind, operator_types.
  set (w' := set_stdin _ _ _ w).
  assert (Hh' : holds_line_end w') by exact Hh.
  assert (Hq' : tty_queued w' <> []).
  { unfold pending in Hp. cbn.
    destruct (tty_queued w ++ firstn (arrivals tk) (tty_later w))%list;
      [discriminate Hp|discriminate]. }
  destruct (keyboard_handler_stale w' Hh' Hq') as (w1 & Hk & Hq1 & Hl1 & _).
  exists w1. split; [exact Hk|]. now split.
Qed.

(** ** What the poll discards *)

(** C10, as the code has it.  Whenever [keyboard_handler] finds input
    pending it reads and discards one full line, the first unread one.
    When the buffer of [sys.stdin] holds a line, that buffered line is the
    one discarded and the line just typed stays queued for the mode
    selection that follows.  When the buffer holds no line end, the typed
    line itself is consumed: the mode selection never sees it, reads only
    what is typed after it, and waits forever when nothing is.  In the
    loop of a session started with an empty buffer the first case is the
    one that applies: the buffer then holds a line. *)
Theorem keyboard_handler_discards_line (w : world) (l : string)
    (q : list string) :
  tty_queued w = l :: q ->
  (exists line w',
      keyboard_handler w = Ret true w' /\
      split_line (unread w) = Some (line, unread w')) /\
  (forall line rest,
      split_line (stdin_buf w) = Some (line, rest) ->
      keyboard_handler w = Ret true (set_stdin rest (l :: q) (tty_later w) w)) /\
  (split_line (stdin_buf w) = None -> split_line l = None ->
   keyboard_handler w = Ret true (set_stdin "" q (tty_later w) w) /\
   unread (set_stdin "" q (tty_later w) w)
   = chunks q ++ chunks (tty_later w) /\
   (q = [] -> tty_later w = [] ->
    exists w', select_mode (set_stdin "" q (tty_later w) w) = Blocked w')) /\
  (forall now0 t0 ticks w0 loc,
      stdin_buf w0 = "" ->
      log_orientation now0 t0 ticks w0 = Ret loc w ->
      exists line rest, split_line (stdin_buf w) = Some (line, rest)).
Proof.
  intros Hq.
  assert (Hne : tty_queued w <> []) by (rewrite Hq; discriminate).
  split; [|split; [|split]].
  4:{ intros now0 t0 ticks w0 loc Hb Hrun.
      destruct (session_line_end now0 t0 ticks w0 loc w Hb Hrun)
        as ((s & Hs) & _).
      rewrite Hs. apply (split_line_chunk s). }
  - destruct (keyboard_handler_pending w Hne) as (line & w' & Hk & Hs & _).
    now exists line, w'.
  - intros line rest Hs.
    rewrite (keyboard_handler_buffered w line rest Hne Hs). now rewrite Hq.
  - intros Hn Hl.
    assert (Hs : split_line (stdin_buf w ++ chunk l)
                 = Some (stdin_buf w ++ chunk l, "")).
    { rewrite (split_line_none_app _ _ Hn).
      now rewrite (split_line_chunk_whole l Hl). }
    split; [exact (keyboard_handler_fetch w l q _ _ Hq Hn Hs)|].
    split; [reflexivity|].
    intros -> Hlater. rewrite Hlater.
    pose proof (select_mode_spec (set_stdin "" [] [] w)) as Hm.
    change (unread (set_stdin "" [] [] w)) with "" in Hm.
    cbn [first_digit] in Hm.
    destruct Hm as (w' & Hm & _). now exists w'.
Qed.

Lemma keyboard_handler_discards_line_witness :
  keyboard_handler (mkWorld nl ["3"] ["1"] [] [] [] None)
  = Ret true (mkWorld "" ["3"] ["1"] [] [] [] None).
Proof.
  destruct (keyboard_handler_discards_line
              (mkWorld nl ["3"] ["1"] [] [] [] None) "3" [] eq_refl)
    as (_ & H & _).
  exact (H nl "" eq_refl).
Defined.

(** C10, as stated, fails.  After a mode selection the buffer holds the
    line end left behind; the operator types "3" during sampling.  The
    handler discards the buffered line end, the typed line stays queued,
    and the mode selection reads its "3" at once: no fresh input is
    awaited.  The same happens in a whole run, where "3" is the only line
    typed after Setup and the rows change from key to nokey. *)
Lemma typed_line_reaches_select_mode :
  keyboard_handler (mkWorld nl ["3"] [] [] [] [] None)
  = Ret true (mkWorld "" ["3"] [] [] [] [] None) /\
  select_mode (mkWorld "" ["3"] [] [] [] [] None)
  = Ret "nokey" (mkWorld nl [] [] [OutText mode_prompt] [] [] None) /\
  let o := mkOrientation 0 0 0 in
  let a := mkAcceleration 0 0 1 in
  let d := mkDatetime 2024 3 7 9 5 1 in
  let run := log_orientation d 0
               [mkTick 0 o a 1 d; mkTick 1 o a 2 d; mkTick 0 o a 3 d]
               (initial ["Alice"; "y"; "2"; "3"] []) in
  exists l w',
    run = Ret l w' /\ l_mode l = "nokey" /\ all_lines w' = [] /\
    map (fun r => nth 8 r (PStr "")) (file_rows w')
    = [PStr "mode"; PStr "key"; PStr "nokey"].
Proof.
  split; [reflexivity|]. split; [reflexivity|].
  cbv zeta. eexists. eexists. split; [vm_compute; reflexivity|].
  repeat split.
Qed.

(** * Further properties of the script *)

(** ** The name dialogue as a function of the input *)

Lemma set_name_loop_dialogue (f : nat) : forall st w,
  lines_left w < f -> name_rejected st = true ->
  match dialogue (all_lines w) with
  | Some (name, rest) =>
      exists check w',
        while_ f name_rejected set_name_body st w = Ret (check, name) w' /\
        all_lines w' = rest /\ stdin_buf w' = stdin_buf w /\
        List.length (stdout w') + List.length rest
        = List.length (stdout w) + List.length (all_lines w)
  | None => exists w', while_ f name_rejected set_name_body st w = Blocked w'
  end.
Proof.
  induction f as [|f IH]; intros st w Hlt Hc; [lia|].
  cbn [while_]. rewrite Hc. unfold bind.
  pose proof (set_name_body_spec st w) as Hb.
  rewrite lines_left_all_lines in Hlt.
  destruct (all_lines w) as [|name [|check rest]] eqn:E; cbn [dialogue].
  - destruct Hb as (w2 & ->). now exists w2.
  - destruct Hb as (w2 & ->). now exists w2.
  - destruct Hb as (w2 & -> & Hl & Ho & Hbuf & _).
    destruct (name_rejected (check, name)) eqn:Hr.
    + assert (Hlt2 : lines_left w2 < f).
      { rewrite lines_left_all_lines, Hl. simpl in Hlt. lia. }
      specialize (IH (check, name) w2 Hlt2 Hr). rewrite Hl in IH.
      destruct (dialogue rest) as [[name' rest']|].
      * destruct IH as (check' & w' & Hw & Hl' & Hb' & Hn).
        exists check', w'. split; [exact Hw|]. split; [exact Hl'|].
        split; [congruence|].
        rewrite Hn, Ho, length_app. simpl. lia.
      * exact IH.
    + exists check, w2. rewrite (while_done _ _ _ _ _ Hr).
      split; [reflexivity|]. split; [exact Hl|]. split; [exact Hbuf|].
      rewrite Ho, length_app. simpl. lia.
Qed.

(** [set_name] computes [dialogue]: it returns the first name whose
    answer contains neither N nor n, having read exactly the lines up to
    that answer and printed one prompt for each line read; when the input
    holds no such round it waits forever, and returns no name. *)
Theorem set_name_dialogue (w : world) :
  match dialogue (all_lines w) with
  | Some (name, rest) =>
      exists w',
        set_name w = Ret name w' /\ all_lines w' = rest /\
        stdin_buf w' = stdin_buf w /\
        List.length (stdout w') + List.length rest
        = List.length (stdout w) + List.length (all_lines w)
  | None => exists w', set_name w = Blocked w'
  end.
Proof.
  pose proof (set_name_loop_dialogue (S (lines_left w)) ("N", "") w
                                     (Nat.lt_succ_diag_r _) eq_refl) as H.
  unfold set_name, bind.
  destruct (dialogue (all_lines w)) as [[name rest]|].
  - destruct H as (check & w' & -> & Hl & Hb & Hn). now exists w'.
  - destruct H as (w' & ->). now exists w'.
Qed.

(** The test on the answer: the empty answer confirms, any answer with
    an N or an n in it rejects, wherever the letter stands, and the name
    itself is never looked at. *)
Theorem confirmation_test (check name name' : string) :
  name_rejected ("", name) = false /\
  name_rejected (check, name) = name_rejected (check, name') /\
  (forall a b c,
      c = "N"%char \/ c = "n"%char ->
      name_rejected (a ++ String c b, name) = true) /\
  (name_rejected (check, name) = false <->
   ~ In "N"%char (list_ascii_of_string check) /\
   ~ In "n"%char (list_ascii_of_string check)).
Proof.
  split; [reflexivity|]. split; [reflexivity|]. split.
  - intros a b c Hc. apply name_rejected_iff. unfold negative_token. cbn [fst].
    assert (Hin : In c (list_ascii_of_string (a ++ String c b))).
    { induction a as [|x a IH]; cbn; [now left | now right]. }
    destruct Hc as [->| ->]; [now left | now right].
  - pose proof (name_rejected_iff (check, name)) as Hi.
    unfold negative_token in Hi. cbn [fst] in Hi.
    destruct (name_rejected (check, name)); split; intros H.
    + discriminate.
    + exfalso. destruct H as (H1 & H2).
      destruct (proj1 Hi eq_refl); contradiction.
    + split; intros Hin; [assert (true = false -> False) by discriminate|];
        destruct Hi as (_ & Hi); [specialize (Hi (or_introl Hin))
                                 |specialize (Hi (or_intror Hin))];
        discriminate.
    + reflexivity.
Qed.

(** ** [display_mode] outside the three modes, and telling modes apart *)

Lemma dict_get_none_raises {V : Type} (d : list (string * V)) (k : string)
    (w : world) :
  dict_get d k = None -> getitem d k w = Raise (KeyError k) w.
Proof. intros H. unfold getitem. now rewrite H. Qed.

Lemma pattern_dict_missing (mode : string) :
  ~ In mode valid_modes -> dict_get pattern_dict mode = None.
Proof.
  intros Hn. cbn [dict_get pattern_dict].
  destruct (String.eqb "pick" mode) eqn:E1;
    [apply String.eqb_eq in E1; exfalso; apply Hn; subst; simpl; tauto|].
  destruct (String.eqb "key" mode) eqn:E2;
    [apply String.eqb_eq in E2; exfalso; apply Hn; subst; simpl; tauto|].
  destruct (String.eqb "nokey" mode) eqn:E3;
    [apply String.eqb_eq in E3; exfalso; apply Hn; subst; simpl; tauto|].
  reflexivity.
Qed.

(** A mode name that is none of pick, key, nokey makes [display_mode]
    raise [KeyError] for that name; the display is not written and the
    world is left as it was. *)
Theorem display_mode_unknown (mode : string) (w : world) :
  ~ In mode valid_modes ->
  display_mode mode w = Raise (KeyError mode) w.
Proof.
  intros Hn. unfold display_mode, bind.
  pose proof (pattern_dict_missing mode Hn) as Hd.
  now rewrite (dict_get_none_raises _ _ w Hd).
Qed.

Lemma display_mode_unknown_witness :
  display_mode "Key" (initial [] []) = Raise (KeyError "Key") (initial [] []).
Proof.
  apply (display_mode_unknown "Key" (initial [] [])).
  intros [H|[H|[H|[]]]]; discriminate H.
Defined.

(** The LEDs tell the mode: two calls of [display_mode] that leave the
    same pattern lit were made with the same mode. *)
Theorem display_mode_tells_mode (m1 m2 : string) (w1 w2 w1' w2' : world) :
  display_mode m1 w1 = Ret tt w1' ->
  display_mode m2 w2 = Ret tt w2' ->
  pixels w1' = pixels w2' -> m1 = m2.
Proof.
  assert (Hv : forall m w w', display_mode m w = Ret tt w' ->
                              In m valid_modes /\ pixels w' = pattern_of m).
  { intros m w w' H.
    destruct (in_dec string_dec m valid_modes) as [Hin|Hn].
    - split; [exact Hin|].
      destruct (display_mode_known m Hin) as (p & Hd & _ & _ & Hw).
      rewrite Hw in H. inversion H. unfold pattern_of. now rewrite Hd.
    - unfold display_mode, bind in H.
      rewrite (dict_get_none_raises _ _ w (pattern_dict_missing m Hn)) in H.
      discriminate. }
  intros H1 H2 Hp.
  destruct (Hv _ _ _ H1) as (Hin1 & Hp1), (Hv _ _ _ H2) as (Hin2 & Hp2).
  rewrite Hp1, Hp2 in Hp.
  destruct Hin1 as [<-|[<-|[<-|[]]]], Hin2 as [<-|[<-|[<-|[]]]];
    try reflexivity; discriminate Hp.
Qed.

Lemma display_mode_tells_mode_witness :
  exists w1' w2',
    display_mode "key" (initial [] []) = Ret tt w1' /\
    display_mode "key" (initial ["x"] [red]) = Ret tt w2' /\
    pixels w1' = pixels w2' /\ "key" = "key".
Proof.
  eexists. eexists.
  split; [reflexivity|]. split; [reflexivity|]. split; [reflexivity|].
  eapply (display_mode_tells_mode "key" "key" (initial [] [])
                                  (initial ["x"] [red])); reflexivity.
Defined.

(** ** File names and time stamps *)

Lemma digit_eq (a b : nat) : digit a = digit b -> a mod 10 = b mod 10.
Proof.
  unfold digit. intros H. apply (f_equal nat_of_ascii) in H.
  assert (Ha : a mod 10 < 10) by (apply Nat.mod_upper_bound; discriminate).
  assert (Hb : b mod 10 < 10) by (apply Nat.mod_upper_bound; discriminate).
  rewrite !nat_ascii_embedding in H by lia. lia.
Qed.

Lemma two_digits (n : nat) :
  n < 100 -> n = 10 * (n / 10 mod 10) + n mod 10.
Proof.
  intros Hn. pose proof (Nat.div_mod_eq n 10) as E.
  assert (n / 10 < 10) by (apply Nat.Div0.div_lt_upper_bound; lia).
  rewrite (Nat.mod_small (n / 10)) by lia. lia.
Qed.

Lemma pad2_inj (a b : nat) : a < 100 -> b < 100 -> pad2 a = pad2 b -> a = b.
Proof.
  intros Ha Hb H.
  assert (G1 : digit (a / 10) = digit (b / 10))
    by (unfold pad2 in H; congruence).
  assert (G2 : digit a = digit b) by (unfold pad2 in H; congruence).
  apply digit_eq in G1, G2.
  rewrite (two_digits a Ha), (two_digits b Hb), G1, G2. reflexivity.
Qed.

Lemma pad2_append_inv (x y : nat) (s t : string) :
  pad2 x ++ s = pad2 y ++ t -> pad2 x = pad2 y /\ s = t.
Proof.
  unfold pad2. cbn [append]. intros H. split; congruence.
Qed.

Lemma append_inv_length (a b s t : string) :
  a ++ s = b ++ t -> String.length s = String.length t -> a = b /\ s = t.
Proof.
  revert b. induction a as [|x a IH]; intros [|y b] H Hl; cbn in H.
  - now split.
  - exfalso. rewrite H in Hl. cbn in Hl. rewrite length_append in Hl. lia.
  - exfalso. rewrite <- H in Hl. cbn in Hl. rewrite length_append in Hl. lia.
  - injection H as -> H. destruct (IH b H Hl) as (-> & ->). now split.
Qed.

Lemma string_tail (a b : ascii) (s t : string) :
  String a s = String b t -> s = t.
Proof. intros H. now injection H. Qed.

Lemma append_suffix (b : string) : forall a s t,
  a ++ s = b ++ t -> String.length s <= String.length t ->
  exists p, t = p ++ s /\ a = b ++ p.
Proof.
  induction b as [|y b IH]; intros a s t H Hl.
  - exists a. split; [symmetry; exact H|reflexivity].
  - destruct a as [|x a]; cbn in H.
    + exfalso. rewrite H in Hl. cbn in Hl. rewrite length_append in Hl. lia.
    + injection H as -> H. destruct (IH a s t H Hl) as (p & Ht & ->).
      now exists p.
Qed.

Lemma decimal_digits_nonempty (f n : nat) :
  0 < f -> 1 <= String.length (decimal_digits f n).
Proof.
  destruct f as [|f]; [lia|]. intros _. cbn [decimal_digits].
  destruct (n <? 10)%nat; [cbn; lia|].
  rewrite length_append. cbn. lia.
Qed.

(** The decimal rendering determines the number. *)
Lemma decimal_digits_inj (f : nat) : forall f' n n',
  n < f -> n' < f' -> decimal_digits f n = decimal_digits f' n' -> n = n'.
Proof.
  induction f as [|f IH]; intros f' n n' Hf Hf' H; [lia|].
  destruct f' as [|f']; [lia|].
  destruct (Nat.lt_ge_cases n 10) as [Hs|Hg],
           (Nat.lt_ge_cases n' 10) as [Hs'|Hg'].
  - rewrite !decimal_digits_small in H by assumption.
    injection H as H. apply digit_eq in H.
    now rewrite !Nat.mod_small in H by assumption.
  - exfalso. rewrite decimal_digits_small in H by assumption.
    rewrite decimal_digits_step in H by assumption.
    apply (f_equal String.length) in H. rewrite length_append in H.
    pose proof (decimal_digits_nonempty f' (n' / 10) ltac:(lia)).
    cbn [String.length] in H. lia.
  - exfalso. rewrite (decimal_digits_small f' n') in H by assumption.
    rewrite decimal_digits_step in H by assumption.
    apply (f_equal String.length) in H. rewrite length_append in H.
    pose proof (decimal_digits_nonempty f (n / 10) ltac:(lia)).
    cbn [String.length] in H. lia.
  - rewrite !decimal_digits_step in H by assumption.
    apply append_inv_length in H; [|reflexivity].
    destruct H as (Hq & Hr). injection Hr as Hr. apply digit_eq in Hr.
    assert (n / 10 < n) by (apply Nat.div_lt; lia).
    assert (n' / 10 < n') by (apply Nat.div_lt; lia).
    apply IH in Hq; [|lia|lia].
    pose proof (Nat.div_mod_eq n 10). pose proof (Nat.div_mod_eq n' 10). lia.
Qed.

Lemma decimal_inj (n n' : nat) : decimal n = decimal n' -> n = n'.
Proof. unfold decimal. apply decimal_digits_inj; lia. Qed.

(** A number below 10000 has at most four digits. *)
Lemma decimal_digits_length (f : nat) : forall n k,
  n < f -> n < 10 ^ k -> 1 <= k ->
  String.length (decimal_digits f n) <= k.
Proof.
  induction f as [|f IH]; intros n k Hf Hn Hk; [lia|].
  destruct (Nat.lt_ge_cases n 10) as [Hs|Hg].
  - rewrite decimal_digits_small by exact Hs. cbn. lia.
  - rewrite decimal_digits_step by exact Hg. rewrite length_append.
    cbn [String.length].
    destruct k as [|[|k]]; [lia|cbn in Hn; lia|].
    assert (H1 : n / 10 < 10 ^ S k).
    { apply Nat.Div0.div_lt_upper_bound.
      rewrite (Nat.pow_succ_r' 10 (S k)) in Hn. exact Hn. }
    assert (H2 : n / 10 < n) by (apply Nat.div_lt; lia).
    pose proof (IH (n / 10) (S k) ltac:(lia) H1 ltac:(lia)). lia.
Qed.

Lemma decimal_length (n : nat) :
  n < 100 * 100 -> 1 <= String.length (decimal n) <= 4.
Proof.
  intros H. unfold decimal. split.
  - apply decimal_digits_nonempty. lia.
  - apply decimal_digits_length; [lia| |lia].
    rewrite !Nat.pow_succ_r', Nat.pow_0_r. lia.
Qed.

(** A stamp with the six fields in the order of the script, whatever the
    separators, determines the second it was taken in. *)
Lemma stamp_inj (s1 s2 s3 s4 s5 : ascii) (tl : string) (d d' : datetime) :
  datetime_ok d -> datetime_ok d' ->
  pad2 (month d) ++ String s1 (pad2 (day d) ++ String s2 (decimal (year d)
    ++ String s3 (pad2 (hour d) ++ String s4 (pad2 (minute d)
    ++ String s5 (pad2 (second d) ++ tl)))))
  = pad2 (month d') ++ String s1 (pad2 (day d') ++ String s2 (decimal (year d')
    ++ String s3 (pad2 (hour d') ++ String s4 (pad2 (minute d')
    ++ String s5 (pad2 (second d') ++ tl))))) ->
  d = d'.
Proof.
  destruct d as [y m dd h mi s], d' as [y' m' dd' h' mi' s'].
  unfold datetime_ok. cbn [year month day hour minute second].
  intros (Hy & Hm & Hd & Hh & Hmi & Hs) (Hy' & Hm' & Hd' & Hh' & Hmi' & Hs') H.
  apply pad2_append_inv in H. destruct H as (Em & H). apply string_tail in H.
  apply pad2_append_inv in H. destruct H as (Ed & H). apply string_tail in H.
  apply append_inv_length in H;
    [|unfold pad2; cbn [append String.length]; reflexivity].
  destruct H as (Ey & H). apply string_tail in H.
  apply pad2_append_inv in H. destruct H as (Eh & H). apply string_tail in H.
  apply pad2_append_inv in H. destruct H as (Ei & H). apply string_tail in H.
  apply pad2_append_inv in H. destruct H as (Es & _).
  apply pad2_inj in Em, Ed, Eh, Ei, Es; try lia.
  apply decimal_inj in Ey. congruence.
Qed.

(** The part of the path that follows the name. *)
Lemma file_stamp_form (d : datetime) :
  strftime "%m_%d_%Y_%H_%M_%S" d ++ ".csv"
  = pad2 (month d) ++ String "_" (pad2 (day d) ++ String "_" (decimal (year d)
    ++ String "_" (pad2 (hour d) ++ String "_" (pad2 (minute d)
    ++ String "_" (pad2 (second d) ++ ".csv"))))).
Proof.
  change (strftime "%m_%d_%Y_%H_%M_%S" d)
    with (pad2 (month d) ++ String "_" (pad2 (day d) ++ String "_"
            (decimal (year d) ++ String "_" (pad2 (hour d) ++ String "_"
               (pad2 (minute d) ++ String "_" (pad2 (second d) ++ "")))))).
  unfold pad2. cbn [append]. now rewrite append_assoc.
Qed.

Lemma file_stamp_length (d : datetime) :
  String.length (strftime "%m_%d_%Y_%H_%M_%S" d ++ ".csv")
  = 19 + String.length (decimal (year d)).
Proof.
  rewrite file_stamp_form. unfold pad2. cbn [append String.length].
  rewrite length_append. cbn [append String.length]. lia.
Qed.

(** Two equal paths have years of the same width: a path with the longer
    year would have a letter of log where the other has its underscore. *)
Lemma file_path_year_width (name name' : string) (d d' : datetime) :
  file_path name d = file_path name' d' ->
  String.length (decimal (year d)) <= String.length (decimal (year d'))
  <= String.length (decimal (year d)) + 3 ->
  String.length (decimal (year d)) = String.length (decimal (year d')).
Proof.
  intros H [Hle Hup]. unfold file_path in H. cbn [append] in H.
  do 6 apply string_tail in H.
  apply append_suffix in H.
  2:{ cbn [String.length]. rewrite !file_stamp_length. lia. }
  destruct H as (p & Ht & _).
  pose proof (f_equal String.length Ht) as Hl.
  rewrite length_append in Hl. cbn [String.length] in Hl.
  rewrite !file_stamp_length in Hl.
  destruct p as [|c1 [|c2 [|c3 [|c4 p]]]]; cbn [String.length] in Hl;
    try lia; cbn [append] in Ht; discriminate Ht.
Qed.

(** Two sessions write to the same file only if they were started with
    the same name and in the same second: for dates and times a
    [datetime] can hold, [file_path] is injective. *)
Theorem file_path_injective (name name' : string) (d d' : datetime) :
  datetime_ok d -> datetime_ok d' ->
  file_path name d = file_path name' d' ->
  name = name' /\ d = d'.
Proof.
  intros Hd Hd' H.
  assert (Hw : String.length (decimal (year d))
               = String.length (decimal (year d'))).
  { pose proof (decimal_length (year d) ltac:(destruct Hd; lia)) as L.
    pose proof (decimal_length (year d') ltac:(destruct Hd'; lia)) as L'.
    destruct (Nat.le_ge_cases (String.length (decimal (year d)))
                              (String.length (decimal (year d')))) as [C|C].
    - apply (file_path_year_width name name' d d' H). lia.
    - symmetry. apply (file_path_year_width name' name d' d (eq_sym H)). lia. }
  unfold file_path in H. cbn [append] in H.
  do 6 apply string_tail in H.
  apply append_inv_length in H.
  2:{ cbn [String.length]. rewrite !file_stamp_length. lia. }
  destruct H as (-> & H). split; [reflexivity|].
  do 5 apply string_tail in H. rewrite !file_stamp_form in H.
  now apply (stamp_inj "_" "_" "_" "_" "_" ".csv" d d').
Qed.

Lemma file_path_injective_witness :
  "Alice" = "Alice" /\
  mkDatetime 2024 3 7 9 5 1 = mkDatetime 2024 3 7 9 5 1.
Proof.
  apply file_path_injective; try reflexivity;
    unfold datetime_ok; cbn; lia.
Defined.

(** The time stamp of a row, its seventh cell, determines the second the
    row was taken in: two rows made at dates and times a [datetime] can
    hold and stamped alike were made in the same second.  While the
    clock shows a year of four digits the stamp is the clock as
    MM/DD/YYYY_HH:MM:SS, 19 characters. *)
Theorem timestamp_injective (l l' : locals) (o o' : orientation)
    (a a' : acceleration) (t t' : Q) (d d' : datetime) :
  datetime_ok d -> datetime_ok d' ->
  exists s s',
    nth_error (sample_row l o a t d) 6 = Some (PStr s) /\
    nth_error (sample_row l' o' a' t' d') 6 = Some (PStr s') /\
    (s = s' -> d = d') /\
    (1000 <= year d ->
     String.length s = 19 /\
     s = pad2 (month d) ++ "/" ++ pad2 (day d) ++ "/" ++ pad4 (year d) ++ "_"
         ++ pad2 (hour d) ++ ":" ++ pad2 (minute d) ++ ":" ++ pad2 (second d)).
Proof.
  intros Hd Hd'. eexists. eexists.
  split; [reflexivity|]. split; [reflexivity|]. split.
  - intros H. now apply (stamp_inj "/" "/" "_" ":" ":" "" d d').
  - intros Hy.
    assert (Hy4 : 1000 <= year d < 100 * 100) by (destruct Hd; lia).
    rewrite (stamp_four_digits d Hy4). split; reflexivity.
Qed.

Lemma timestamp_injective_witness :
  exists s,
    nth_error (sample_row (mkLocals "Alice" "key" 0) (mkOrientation 1 2 3)
                          (mkAcceleration 0 0 1) 4
                          (mkDatetime 2024 3 7 9 5 1)) 6 = Some (PStr s) /\
    String.length s = 19.
Proof.
  destruct (timestamp_injective
              (mkLocals "Alice" "key" 0) (mkLocals "Bob" "pick" 0)
              (mkOrientation 1 2 3) (mkOrientation 1 2 3)
              (mkAcceleration 0 0 1) (mkAcceleration 0 0 1) 4 5
              (mkDatetime 2024 3 7 9 5 1) (mkDatetime 2024 3 7 9 5 1))
    as (s & s' & Hs & _ & _ & Hl).
  - unfold datetime_ok; cbn; lia.
  - unfold datetime_ok; cbn; lia.
  - exists s. split; [exact Hs|]. apply Hl. cbn. lia.
Defined.

(** ** What a mode selection prints *)

Lemma select_mode_echo (w w' : world) :
  final_world (select_mode w) = Some w' ->
  stdout w' = (stdout w ++ [OutText mode_prompt])%list /\ same_devices w w'.
Proof.
  intros H. pose proof (select_mode_spec w) as Hs.
  destruct (first_digit (unread w)) as [[d rest]|].
  - destruct (dict_get mode_dict (String d "")) as [m|];
      destruct Hs as (w1 & Hr & _ & Ho & Hd); rewrite Hr in H;
      inversion H; subst; now split.
  - destruct Hs as (w1 & Hr & Ho & Hd). rewrite Hr in H.
    inversion H; subst. now split.
Qed.

(** However [select_mode] ends, by returning, raising or waiting, and
    however many characters and lines it skipped, it has printed its
    prompt exactly once and nothing else, and it has not touched the
    Sense HAT or the file. *)
Theorem select_mode_one_prompt (w w' : world) :
  final_world (select_mode w) = Some w' ->
  stdout w' = (stdout w ++ [OutText mode_prompt])%list /\
  hat_log w' = hat_log w /\ pixels w' = pixels w /\ log_file w' = log_file w.
Proof.
  intros H. destruct (select_mode_echo w w' H) as (Ho & Hd). now split.
Qed.

Lemma select_mode_one_prompt_witness :
  exists w',
    final_world (select_mode (initial ["x"; ""; "y2"] [])) = Some w' /\
    stdout w' = [OutText mode_prompt].
Proof.
  assert (H : exists w',
             final_world (select_mode (initial ["x"; ""; "y2"] [])) = Some w')
    by (eexists; vm_compute; reflexivity).
  destruct H as (w' & H). exists w'. split; [exact H|].
  exact (proj1 (select_mode_one_prompt _ _ H)).
Defined.

(** ** What a session does to the file, the Sense HAT and the console *)

Lemma printed_rows_app (a b : list out_item) :
  printed_rows (a ++ b) = (printed_rows a ++ printed_rows b)%list.
Proof.
  induction a as [|x a IH]; [reflexivity|].
  destruct x; cbn; now rewrite IH.
Qed.

Lemma loop_body_switch_world (tk : tick) (l : locals) (w w' : world) :
  pending tk w = true ->
  final_world (loop_body tk l w) = Some w' ->
  same_devices w w' /\ stdout w' = (stdout w ++ [OutText mode_prompt])%list.
Proof.
  intros Hp H.
  destruct (poll_spec tk w) as (w1 & Hpoll & Ho1 & Hd1 & _).
  rewrite Hp in Hpoll. rewrite loop_body_unfold, Hpoll in H.
  unfold bind in H.
  destruct (select_mode w1) as [m w2|e w2|w2|] eqn:Es; try discriminate;
    inversion H; subst;
    (destruct (select_mode_echo w1 w') as (Ho & Hd); [now rewrite Es|]);
    (split; [now apply (same_devices_trans w w1 w') | congruence]).
Qed.

Lemma loop_body_sample_world (tk : tick) (l : locals) (w : world) (f : file) :
  pending tk w = false -> In (l_mode l) valid_modes ->
  log_file w = Some f -> closed f = false ->
  exists w',
    loop_body tk l w = Ret l w' /\
    log_file w'
    = Some (mkFile (path f) (rows f ++ [row_of l (tk, l_mode l)])%list false) /\
    hat_log w' = (hat_log w ++ hat_calls (tk, l_mode l))%list /\
    pixels w' = pattern_of (l_mode l) /\
    stdout w' = (stdout w ++ [OutRow (row_of l (tk, l_mode l))])%list.
Proof.
  intros Hp Hm Hf Hc.
  destruct (poll_spec tk w) as (w1 & Hpoll & Ho1 & (Hh1 & Hx1 & Hf1) & _).
  rewrite Hp in Hpoll. rewrite loop_body_unfold, Hpoll.
  destruct (display_mode_known _ Hm) as (p & Hd & _ & _ & Hw).
  unfold bind at 1. rewrite Hw.
  unfold bind, get_orientation_degrees, get_accelerometer_raw, writerow.
  cbn [log_file set_hat hat_log pixels]. rewrite Hf1, Hf, Hc.
  eexists. split; [reflexivity|].
  unfold hat_calls, pattern_of. cbn [fst snd]. rewrite Hd.
  cbn [log_file hat_log pixels stdout set_log_file set_stdout set_hat print_row].
  rewrite Hh1, Ho1. repeat split.
  now rewrite <- !app_assoc.
Qed.

(** The world after some passes of the loop, in full: the file has grown
    by the rows of the sampling passes, the Sense HAT was called three
    times for each of them, and the console has echoed their rows. *)
Lemma loop_trace_world (ticks : list tick) : forall l w f,
  In (l_mode l) valid_modes -> log_file w = Some f -> closed f = false ->
  forall w',
    final_world (loop ticks l w) = Some w' ->
    exists picks,
      subseq (map fst picks) ticks /\
      Forall (fun p => In (snd p) valid_modes) picks /\
      log_file w'
      = Some (mkFile (path f) (rows f ++ map (row_of l) picks)%list false) /\
      hat_log w' = (hat_log w ++ flat_map hat_calls picks)%list /\
      pixels w' = fold_left (fun _ p => pattern_of (snd p)) picks (pixels w) /\
      printed_rows (stdout w')
      = (printed_rows (stdout w) ++ map (row_of l) picks)%list.
Proof.
  induction ticks as [|tk ticks IH]; intros l w f Hm Hf Hc w' H.
  - inversion H; subst. exists []. cbn. rewrite !app_nil_r.
    repeat split; try constructor.
    rewrite Hf. destruct f as [p r c]. cbn in Hc. now subst.
  - cbn [loop] in H. unfold bind in H.
    destruct (pending tk w) eqn:Hp.
    + destruct (loop_body_switch tk l w Hp)
        as (w1 & _ & _ & [(m & w2 & _ & Hm2 & _ & Hb)
                         |[(e & w2 & _ & _ & Hb)|(w2 & _ & _ & Hb)]]);
        destruct (loop_body_switch_world tk l w w2 Hp) as ((Hh & Hx & Hfile) & Ho);
        try (now rewrite Hb); rewrite Hb in H.
      * assert (Hf2 : log_file w2 = Some f) by congruence.
        destruct (IH (mkLocals (l_name l) m (l_start_time l)) w2 f Hm2 Hf2 Hc w' H)
          as (picks & Hs & Hv & Hr & Hl & Hpx & Hpr).
        exists picks. split; [now constructor|]. split; [exact Hv|].
        split; [exact Hr|]. split; [congruence|]. split; [congruence|].
        rewrite Hpr, Ho, printed_rows_app. cbn. now rewrite app_nil_r.
      * inversion H; subst. exists []. cbn. rewrite !app_nil_r.
        split; [apply subseq_nil_l|]. split; [constructor|].
        split; [rewrite Hfile, Hf; destruct f as [p r c]; cbn in Hc; now subst|].
        split; [exact Hh|]. split; [exact Hx|].
        rewrite Ho, printed_rows_app. cbn. now rewrite app_nil_r.
      * inversion H; subst. exists []. cbn. rewrite !app_nil_r.
        split; [apply subseq_nil_l|]. split; [constructor|].
        split; [rewrite Hfile, Hf; destruct f as [p r c]; cbn in Hc; now subst|].
        split; [exact Hh|]. split; [exact Hx|].
        rewrite Ho, printed_rows_app. cbn. now rewrite app_nil_r.
    + destruct (loop_body_sample_world tk l w f Hp Hm Hf Hc)
        as (w1 & Hb & Hf1 & Hh1 & Hx1 & Ho1).
      rewrite Hb in H.
      destruct (IH l w1 _ Hm Hf1 eq_refl w' H)
        as (picks & Hs & Hv & Hr & Hl & Hpx & Hpr).
      exists ((tk, l_mode l) :: picks).
      split; [cbn; now constructor|].
      split; [constructor; [exact Hm|exact Hv]|].
      split; [rewrite Hr; cbn [path rows map]; now rewrite <- app_assoc|].
      split; [rewrite Hl, Hh1; cbn [flat_map]; now rewrite <- app_assoc|].
      split; [rewrite Hpx, Hx1; reflexivity|].
      rewrite Hpr, Ho1, printed_rows_app. cbn [map printed_rows].
      now rewrite <- app_assoc.
Qed.

Lemma set_name_echo : keeps same_echo set_name.
Proof.
  apply keeps_set_name.
  - reflexivity.
  - unfold same_echo. congruence.
  - intros s w w' H. inversion H. unfold same_echo. cbn.
    rewrite printed_rows_app. cbn. now rewrite app_nil_r.
  - intros w w' H. pose proof (fetch_line_spec w) as Hf. unfold same_echo.
    destruct (all_lines w) as [|l r].
    + rewrite Hf in H. now inversion H.
    + destruct Hf as (w1 & E & _ & _ & _ & Ho & _). rewrite E in H.
      inversion H; subst. now rewrite Ho.
Qed.

(** A session in full.  Either no file was opened (Setup did not
    complete, or the path could not be created), and then nothing but
    prompts was produced; or one was, and the file, the Sense HAT and the
    console are as the sampling passes left them. *)
Lemma log_orientation_world (now0 : datetime) (t0 : Q) (ticks : list tick)
    (w0 w' : world) :
  final_world (log_orientation now0 t0 ticks w0) = Some w' ->
  (same_devices w0 w' /\ same_echo w0 w' /\
   forall name w1 mode w2,
     set_name w0 = Ret name w1 -> select_mode w1 = Ret mode w2 ->
     open_error w2 (file_path name now0) = None -> False) \/
  exists name w1 mode w2 picks,
    set_name w0 = Ret name w1 /\ select_mode w1 = Ret mode w2 /\
    open_error w2 (file_path name now0) = None /\
    subseq (map fst picks) ticks /\
    Forall (fun p => In (snd p) valid_modes) picks /\
    log_file w'
    = Some (mkFile (file_path name now0)
                   (csv_header :: map (row_of (mkLocals name mode t0)) picks)
                   (match log_orientation now0 t0 ticks w0 with
                    | Raise _ _ => true
                    | _ => false
                    end)) /\
    hat_log w' = (hat_log w0 ++ flat_map hat_calls picks)%list /\
    pixels w' = fold_left (fun _ p => pattern_of (snd p)) picks (pixels w0) /\
    printed_rows (stdout w')
    = (printed_rows (stdout w0)
       ++ map (row_of (mkLocals name mode t0)) picks)%list.
Proof.
  rewrite log_orientation_unfold.
  pose proof (set_name_devices w0) as Hkd.
  pose proof (set_name_echo w0) as Hke.
  destruct (set_name w0) as [name w1|e w1|w1|] eqn:E1; try discriminate.
  2:{ intros H. left. split; [now apply Hkd|]. split; [now apply Hke|].
      intros; discriminate. }
  2:{ intros H. left. split; [now apply Hkd|]. split; [now apply Hke|].
      intros; discriminate. }
  assert (Hd1 : same_devices w0 w1) by (now apply Hkd).
  assert (He1 : same_echo w0 w1) by (now apply Hke).
  pose proof (select_mode_echo w1) as Hse.
  destruct (select_mode_outcome w1)
    as [(m & w2 & Hs & Hm & _)|[(e & w2 & Hs & _)|(w2 & Hs & _)]];
    rewrite Hs; rewrite Hs in Hse.
  2:{ intros H. inversion H; subst. destruct (Hse w' eq_refl) as (Ho & Hd).
      left. split; [now apply (same_devices_trans w0 w1 w')|].
      split; [|intros ? ? ? ? Hn Hm2; congruence].
      unfold same_echo in *. rewrite Ho, printed_rows_app. cbn.
      now rewrite app_nil_r. }
  2:{ intros H. inversion H; subst. destruct (Hse w' eq_refl) as (Ho & Hd).
      left. split; [now apply (same_devices_trans w0 w1 w')|].
      split; [|intros ? ? ? ? Hn Hm2; congruence].
      unfold same_echo in *. rewrite Ho, printed_rows_app. cbn.
      now rewrite app_nil_r. }
  destruct (Hse w2 eq_refl) as (Ho2 & Hd2).
  assert (He2 : same_echo w0 w2).
  { unfold same_echo in *. rewrite Ho2, printed_rows_app, He1. cbn.
    now rewrite app_nil_r. }
  destruct (open_error w2 (file_path name now0)) as [e|] eqn:Eo.
  { intros H. inversion H; subst. left.
    split; [now apply (same_devices_trans w0 w1 w')|]. split; [exact He2|].
    intros ? ? ? ? Hn Hm2 Ho.
    injection Hn as <- <-. rewrite Hs in Hm2. injection Hm2 as <- <-.
    congruence. }
  destruct Hd2 as (Hh2 & Hx2 & Hf2).
  destruct Hd1 as (Hh1 & Hx1 & Hf1).
  set (w4 := set_log_file _ w2).
  pose proof (loop_trace_world ticks (mkLocals name m t0) w4
                (mkFile (file_path name now0) [csv_header] false)
                Hm eq_refl eq_refl) as Ht.
  assert (Hpr4 : printed_rows (stdout w4) = printed_rows (stdout w0))
    by exact He2.
  assert (Hh4 : hat_log w4 = hat_log w0) by (cbn; congruence).
  assert (Hx4 : pixels w4 = pixels w0) by (cbn; congruence).
  intros H. right. exists name, w1, m, w2.
  destruct (loop ticks (mkLocals name m t0) w4) as [l w5|e w5|w5|] eqn:El;
    try discriminate; inversion H; subst w';
    destruct (Ht w5 eq_refl) as (picks & Hsub & Hv & Hr & Hl & Hpx & Hpr);
    exists picks; (split; [reflexivity|]); (split; [exact Hs|]);
    (split; [exact Eo|]);
    (split; [exact Hsub|]); (split; [exact Hv|]).
  - rewrite Hl, Hpx, Hpr, Hh4, Hx4, Hpr4. now repeat split.
  - unfold close_log. rewrite Hr. cbn.
    rewrite Hl, Hpx, Hpr, Hh4, Hx4, Hpr4. now repeat split.
  - rewrite Hl, Hpx, Hpr, Hh4, Hx4, Hpr4. now repeat split.
Qed.

(** The session file is created exactly when Setup was completed and
    the file system let [open] create the path: when the name dialogue
    and the first mode selection both returned and [open] did not raise.
    A Setup that raises or waits forever leaves no file behind; and when
    [open] raises, for a name with a slash in it for instance, the script
    ends with that exception in the world in which Setup ended, before
    any pass of the loop. *)
Theorem file_opened_iff_setup_done (now0 : datetime) (t0 : Q)
    (ticks : list tick) (w0 w' : world) :
  log_file w0 = None ->
  final_world (log_orientation now0 t0 ticks w0) = Some w' ->
  (log_file w' <> None <->
   exists name w1 mode w2,
     set_name w0 = Ret name w1 /\ select_mode w1 = Ret mode w2 /\
     open_error w2 (file_path name now0) = None) /\
  (forall name w1 mode w2 e,
      set_name w0 = Ret name w1 -> select_mode w1 = Ret mode w2 ->
      open_error w2 (file_path name now0) = Some e ->
      log_orientation now0 t0 ticks w0 = Raise e w2 /\ w' = w2 /\
      hat_log w' = hat_log w0).
Proof.
  intros Hn H. split.
  - destruct (log_orientation_world now0 t0 ticks w0 w' H)
      as [((_ & _ & Hf) & _ & Hno)
         |(name & w1 & mode & w2 & picks & Hs & Hm & Ho & _ & _ & Hf & _)].
    + split.
      * intros Hne. rewrite Hf, Hn in Hne. now contradiction Hne.
      * intros (name & w1 & mode & w2 & Hs & Hm & Ho). exfalso.
        now apply (Hno name w1 mode w2).
    + split.
      * intros _. now exists name, w1, mode, w2.
      * intros _. rewrite Hf. discriminate.
  - intros name w1 mode w2 e Hs Hm Ho.
    assert (E : log_orientation now0 t0 ticks w0 = Raise e w2)
      by (now rewrite log_orientation_unfold, Hs, Hm, Ho).
    rewrite E in H. injection H as <-. split; [exact E|].
    split; [reflexivity|].
    destruct (set_name_devices w0 w1) as (Hh1 & _); [now rewrite Hs|].
    destruct (select_mode_echo w1 w2) as (_ & Hh2 & _); [now rewrite Hm|].
    congruence.
Qed.

Lemma file_opened_iff_setup_done_witness :
  let d := mkDatetime 2024 3 7 9 5 1 in
  let tk := mkTick 0 (mkOrientation 1 2 3) (mkAcceleration 0 0 1) 4 d in
  exists w',
    log_orientation d 0 [tk] (initial ["a/b"; "y"; "2"] [])
    = Raise (FileNotFoundError "./log/a/b_log_03_07_2024_09_05_01.csv") w' /\
    log_file w' = None /\ hat_log w' = [].
Proof.
  intros d tk.
  set (w0 := initial ["a/b"; "y"; "2"] []).
  assert (H : exists w', final_world (log_orientation d 0 [tk] w0) = Some w')
    by (eexists; vm_compute; reflexivity).
  destruct H as (w' & H). exists w'.
  destruct (file_opened_iff_setup_done d 0 [tk] w0 w' eq_refl H) as (_ & Hf).
  destruct (Hf "a/b"
               (mkWorld "" [] ["2"]
                        [OutText name_prompt; OutText (check_prompt "a/b")]
                        [] [] None)
               "key"
               (mkWorld nl [] []
                        [OutText name_prompt; OutText (check_prompt "a/b");
                         OutText mode_prompt]
                        [] [] None)
               (FileNotFoundError "./log/a/b_log_03_07_2024_09_05_01.csv"))
    as (Hr & Hw & Hh).
  - vm_compute. reflexivity.
  - vm_compute. reflexivity.
  - vm_compute. reflexivity.
  - split; [rewrite Hr, Hw; reflexivity|]. split; [|exact Hh].
    rewrite Hw. reflexivity.
Defined.

(** A session that got past Setup and whose path [open] accepted has one
    file, at the path made of the name [set_name] returned and of the
    time read during Setup.  The file stays open while the loop runs or
    waits, and it is closed, with its rows, exactly when an exception ends
    the session. *)
Theorem session_file_closing (now0 : datetime) (t0 : Q) (ticks : list tick)
    (w0 : world) (name : string) (w1 : world) (mode : string) (w2 w' : world) :
  set_name w0 = Ret name w1 -> select_mode w1 = Ret mode w2 ->
  open_error w2 (file_path name now0) = None ->
  final_world (log_orientation now0 t0 ticks w0) = Some w' ->
  exists f,
    log_file w' = Some f /\ path f = file_path name now0 /\
    hd_error (rows f) = Some csv_header /\
    (closed f = true <->
     exists e, log_orientation now0 t0 ticks w0 = Raise e w').
Proof.
  intros Hn Hm Hop H.
  destruct (log_orientation_world now0 t0 ticks w0 w' H)
    as [(_ & _ & Hno)
       |(name' & w1' & mode' & w2' & picks & Hs & _ & _ & _ & _ & Hf & _)].
  { exfalso. now apply (Hno name w1 mode w2). }
  rewrite Hn in Hs. injection Hs as <- <-.
  eexists. split; [exact Hf|]. split; [reflexivity|].
  split; [reflexivity|]. cbn [closed].
  destruct (log_orientation now0 t0 ticks w0) as [l w5|e w5|w5|] eqn:E;
    cbn in H; inversion H; subst; split; try discriminate.
  - intros (e & He). discriminate He.
  - intros _. now exists e.
  - reflexivity.
  - intros (e & He). discriminate He.
Qed.

Lemma session_file_closing_witness :
  let d := mkDatetime 2024 3 7 9 5 1 in
  let tk := mkTick 1 (mkOrientation 1 2 3) (mkAcceleration 0 0 1) 4 d in
  exists w' f,
    final_world (log_orientation d 0 [tk] (initial ["Alice"; "y"; "2"; "4"] []))
    = Some w' /\
    log_file w' = Some f /\
    path f = "./log/Alice_log_03_07_2024_09_05_01.csv" /\
    closed f = true.
Proof.
  intros d tk.
  set (w0 := initial ["Alice"; "y"; "2"; "4"] []).
  assert (H : exists e w', log_orientation d 0 [tk] w0 = Raise e w')
    by (eexists; eexists; vm_compute; reflexivity).
  destruct H as (e & w' & H).
  assert (Hfw : final_world (log_orientation d 0 [tk] w0) = Some w')
    by (now rewrite H).
  destruct (session_file_closing d 0 [tk] w0 "Alice"
              (mkWorld "" [] ["2"; "4"]
                       [OutText name_prompt; OutText (check_prompt "Alice")]
                       [] [] None)
              "key"
              (mkWorld nl [] ["4"]
                       [OutText name_prompt; OutText (check_prompt "Alice");
                        OutText mode_prompt]
                       [] [] None)
              w')
    as (f & Hf & Hp & _ & Hc).
  - vm_compute. reflexivity.
  - vm_compute. reflexivity.
  - vm_compute. reflexivity.
  - exact Hfw.
  - exists w', f. split; [exact Hfw|]. split; [exact Hf|].
    split; [exact Hp|]. apply Hc. now exists e.
Defined.

(** For each row of the session file, in order, the Sense HAT received
    [set_pixels] with the pattern of the row's mode, then
    [get_orientation_degrees], then [get_accelerometer_raw], and it
    received no other call; the LEDs show the pattern of the mode of the
    last row (they are as they were while there is none). *)
Theorem session_hat_protocol (now0 : datetime) (t0 : Q) (ticks : list tick)
    (w0 w' : world) :
  final_world (log_orientation now0 t0 ticks w0) = Some w' ->
  same_devices w0 w' \/
  exists name mode picks,
    file_rows w' = csv_header :: map (row_of (mkLocals name mode t0)) picks /\
    Forall (fun p => nth_error (row_of (mkLocals name mode t0) p) 8
                     = Some (PStr (snd p)) /\ In (snd p) valid_modes) picks /\
    hat_log w' = (hat_log w0 ++ flat_map hat_calls picks)%list /\
    pixels w' = fold_left (fun _ p => pattern_of (snd p)) picks (pixels w0).
Proof.
  intros H.
  destruct (log_orientation_world now0 t0 ticks w0 w' H)
    as [(Hd & _)
       |(name & w1 & mode & w2 & picks & _ & _ & _ & _ & Hv & Hf & Hl & Hp & _)];
    [now left|right].
  exists name, mode, picks.
  split; [unfold file_rows; now rewrite Hf|].
  split; [|now split].
  revert Hv. apply Forall_impl. intros [tk m] Hp'. now split.
Qed.

Lemma session_hat_protocol_witness :
  exists w',
    final_world
      (log_orientation (mkDatetime 2024 3 7 9 5 1) 0
         [mkTick 0 (mkOrientation 1 2 3) (mkAcceleration 0 0 1) 4
                 (mkDatetime 2024 3 7 9 5 2)]
         (initial ["Alice"; "y"; "2"] [])) = Some w' /\
    hat_log w'
    = [SetPixels key_led_pattern; GetOrientation (mkOrientation 1 2 3);
       GetAccelRaw (mkAcceleration 0 0 1)].
Proof.
  set (run := log_orientation _ _ _ _).
  assert (H : exists w', final_world run = Some w')
    by (eexists; vm_compute; reflexivity).
  destruct H as (w' & H). exists w'. split; [exact H|].
  destruct (session_hat_protocol _ _ _ _ w' H) as [_|_];
    vm_compute in H; inversion H; reflexivity.
Defined.

(** The console echoes the sample rows of the file, all of them and in
    their order, and no other row: the header is not echoed. *)
Theorem session_echo (now0 : datetime) (t0 : Q) (ticks : list tick)
    (w0 w' : world) :
  log_file w0 = None ->
  final_world (log_orientation now0 t0 ticks w0) = Some w' ->
  printed_rows (stdout w')
  = (printed_rows (stdout w0) ++ tl (file_rows w'))%list.
Proof.
  intros Hn H.
  destruct (log_orientation_world now0 t0 ticks w0 w' H)
    as [((_ & _ & Hf) & He & _)
       |(name & w1 & mode & w2 & picks & _ & _ & _ & _ & _ & Hf & _ & _ & Hp)].
  - unfold file_rows. rewrite Hf, Hn. cbn. rewrite app_nil_r. exact He.
  - unfold file_rows. rewrite Hf. exact Hp.
Qed.

Lemma session_echo_witness :
  exists w',
    final_world
      (log_orientation (mkDatetime 2024 3 7 9 5 1) 0
         [mkTick 0 (mkOrientation 1 2 3) (mkAcceleration 0 0 1) 4
                 (mkDatetime 2024 3 7 9 5 2)]
         (initial ["Alice"; "y"; "2"] [])) = Some w' /\
    printed_rows (stdout w') = tl (file_rows w') /\
    List.length (printed_rows (stdout w')) = 1%nat.
Proof.
  set (run := log_orientation _ _ _ _).
  assert (H : exists w', final_world run = Some w')
    by (eexists; vm_compute; reflexivity).
  destruct H as (w' & H). exists w'. split; [exact H|].
  split; [exact (session_echo _ _ _ (initial ["Alice"; "y"; "2"] []) w'
                               eq_refl H)|].
  vm_compute in H. inversion H. reflexivity.
Defined.

(** ** An undisturbed session *)

(** When [open] accepts the path and the operator types nothing after
    Setup, every pass of the loop samples: after [n] passes the session is
    still running in the mode chosen at Setup, and the file holds the
    header and [n] rows, one for each pass, in the order of the passes. *)
Theorem quiet_session (now0 : datetime) (t0 : Q) (ticks : list tick)
    (w0 : world) (name : string) (w1 : world) (mode : string) (w2 : world) :
  set_name w0 = Ret name w1 -> select_mode w1 = Ret mode w2 ->
  open_error w2 (file_path name now0) = None ->
  tty_queued w2 = [] -> Forall (fun tk => arrivals tk = 0%nat) ticks ->
  exists w',
    log_orientation now0 t0 ticks w0 = Ret (mkLocals name mode t0) w' /\
    file_rows w'
    = csv_header
        :: map (fun tk => row_of (mkLocals name mode t0) (tk, mode)) ticks /\
    List.length (file_rows w') = S (List.length ticks).
Proof.
  intros Hn Hs Hop Hq Ha.
  assert (Hm : In mode valid_modes).
  { destruct (select_mode_outcome w1)
      as [(m & w & E & Hm & _)|[(e & w & E & _)|(w & E & _)]];
      rewrite E in Hs; [|discriminate|discriminate].
    now injection Hs as -> _. }
  set (w4 := set_log_file
               (Some (mkFile (file_path name now0) [csv_header] false)) w2).
  assert (Hf : file_open w4) by (eexists; split; reflexivity).
  destruct (loop_quiet ticks (mkLocals name mode t0) w4 Hm Hf Hq Ha)
    as (w' & Hl & Hr & _).
  exists w'. rewrite (log_orientation_started _ _ _ _ _ _ _ _ Hn Hs Hop).
  fold w4. rewrite Hl.
  split; [reflexivity|]. cbn in Hr. rewrite Hr.
  split; [reflexivity|]. cbn. now rewrite length_map.
Qed.

Lemma quiet_session_witness :
  let d := mkDatetime 2024 3 7 9 5 1 in
  let tk := mkTick 0 (mkOrientation 1 2 3) (mkAcceleration 0 0 1) 4 d in
  exists w',
    log_orientation d 0 [tk; tk; tk] (initial ["Alice"; "y"; "2"] [])
    = Ret (mkLocals "Alice" "key" 0) w' /\
    List.length (file_rows w') = 4%nat.
Proof.
  intros d tk.
  destruct (quiet_session d 0 [tk; tk; tk] (initial ["Alice"; "y"; "2"] [])
              "Alice"
              (mkWorld "" [] ["2"]
                       [OutText name_prompt; OutText (check_prompt "Alice")]
                       [] [] None)
              "key"
              (mkWorld nl [] []
                       [OutText name_prompt; OutText (check_prompt "Alice");
                        OutText mode_prompt]
                       [] [] None))
    as (w' & Hr & _ & Hl).
  - vm_compute. reflexivity.
  - vm_compute. reflexivity.
  - vm_compute. reflexivity.
  - reflexivity.
  - repeat constructor.
  - exists w'. split; [exact Hr|exact Hl].
Defined.

(** ** A line typed during a session *)

Lemma loop_body_typed (tk : tick) (l : locals) (w : world)
    (line : string) (later : list string) :
  one_line_left w -> tty_queued w = [] -> tty_later w = line :: later ->
  arrivals tk = 1%nat ->
  loop_body tk l w
  = (mode <- select_mode ;;
     ret (mkLocals (l_name l) mode (l_start_time l)))
      (set_stdin "" [line] later w).
Proof.
  intros (s & Hb & Hs) Hq Hl Ha.
  rewrite loop_body_unfold.
  assert (Hpoll : (operator_types (arrivals tk) ;;; keyboard_handler) w
                  = Ret true (set_stdin "" [line] later w)).
  { unfold bind, operator_types. rewrite Ha, Hq, Hl. cbn [firstn skipn app].
    rewrite (keyboard_handler_buffered _ (s ++ nl) "").
    - reflexivity.
    - cbn. discriminate.
    - cbn. rewrite Hb. exact (split_line_chunk_whole s Hs). }
  now rewrite Hpoll.
Qed.

(** During a session the buffer of standard input holds the line end left
    by the last selection.  When the operator then types one line, the
    pass that notices it drops that line end, prints the mode prompt and
    takes the first digit of the typed line: a listed digit selects its
    mode, another digit raises [KeyError].  A line without a digit, such
    as a bare Enter, pauses the logger: it waits for a digit in the lines
    typed later.  In every case the pass writes no row. *)
Theorem typed_line_decides (tk : tick) (l : locals) (w : world)
    (line : string) (later : list string) :
  one_line_left w -> tty_queued w = [] -> tty_later w = line :: later ->
  arrivals tk = 1%nat ->
  match first_digit (chunk line ++ chunks later) with
  | Some (d, rest) =>
      match dict_get mode_dict (String d "") with
      | Some m =>
          exists w',
            loop_body tk l w
            = Ret (mkLocals (l_name l) m (l_start_time l)) w' /\
            unread w' = rest /\ file_rows w' = file_rows w /\
            stdout w' = (stdout w ++ [OutText mode_prompt])%list
      | None =>
          exists w',
            loop_body tk l w = Raise (KeyError (String d "")) w' /\
            file_rows w' = file_rows w
      end
  | None =>
      exists w',
        loop_body tk l w = Blocked w' /\ file_rows w' = file_rows w /\
        stdout w' = (stdout w ++ [OutText mode_prompt])%list
  end.
Proof.
  intros H1 Hq Hl Ha.
  rewrite (loop_body_typed tk l w line later H1 Hq Hl Ha).
  pose proof (select_mode_spec (set_stdin "" [line] later w)) as Hsel.
  assert (Hu : unread (set_stdin "" [line] later w)
               = chunk line ++ chunks later).
  { unfold unread. cbn [stdin_buf tty_queued tty_later set_stdin chunks].
    now rewrite append_empty_r. }
  rewrite Hu in Hsel. unfold bind.
  destruct (first_digit (chunk line ++ chunks later)) as [[d rest]|].
  - destruct (dict_get mode_dict (String d "")) as [m|].
    + destruct Hsel as (w' & E & Hr & Ho & _ & _ & Hf). exists w'.
      rewrite E. split; [reflexivity|]. split; [exact Hr|].
      split; [unfold file_rows; now rewrite Hf|exact Ho].
    + destruct Hsel as (w' & E & _ & _ & _ & _ & Hf). exists w'.
      rewrite E. split; [reflexivity|]. unfold file_rows. now rewrite Hf.
  - destruct Hsel as (w' & E & Ho & _ & _ & Hf). exists w'.
    rewrite E. split; [reflexivity|].
    split; [unfold file_rows; now rewrite Hf|exact Ho].
Qed.

Lemma typed_line_decides_witness :
  let d := mkDatetime 2024 3 7 9 5 1 in
  let tk := mkTick 1 (mkOrientation 1 2 3) (mkAcceleration 0 0 1) 4 d in
  let w := mkWorld nl [] [""] [] [] [] None in
  exists w',
    loop_body tk (mkLocals "Alice" "key" 0) w = Blocked w' /\
    file_rows w' = file_rows w /\
    stdout w' = (stdout w ++ [OutText mode_prompt])%list.
Proof.
  intros d tk w.
  refine (typed_line_decides tk (mkLocals "Alice" "key" 0) w "" [] _ _ _ _).
  - exists "". split; reflexivity.
  - reflexivity.
  - reflexivity.
  - reflexivity.
Defined.

(** ** Rows that were written stay *)

Lemma loop_app (a b : list tick) : forall l w,
  loop (a ++ b) l w = (l' <- loop a l ;; loop b l') w.
Proof.
  induction a as [|tk a IH]; intros l w; [reflexivity|].
  cbn [loop app]. unfold bind.
  destruct (loop_body tk l w) as [l1 w1|e w1|w1|]; try reflexivity.
  rewrite IH. reflexivity.
Qed.

Lemma loop_inv (ticks : list tick) : forall l w l' w',
  In (l_mode l) valid_modes -> file_open w ->
  loop ticks l w = Ret l' w' ->
  In (l_mode l') valid_modes /\ file_open w'.
Proof.
  induction ticks as [|tk ticks IH]; intros l w l' w' Hm Hf H.
  - inversion H; subst. now split.
  - cbn [loop] in H. unfold bind in H.
    destruct (loop_body tk l w) as [l1 w1|e w1|w1|] eqn:E; try discriminate.
    destruct (loop_body_inv tk l w l1 w1 Hm Hf E) as (Hm1 & Hf1).
    now apply (IH l1 w1).
Qed.

Lemma subseq_length {A : Type} (xs ys : list A) :
  subseq xs ys -> (List.length xs <= List.length ys)%nat.
Proof. induction 1; cbn; lia. Qed.

(** The file only grows.  Whatever happens in later passes of a running
    session, the rows written so far stay as they are, at their place;
    the later passes add at most one row each, and the Sense HAT receives
    three calls for each row added. *)
Theorem rows_stay (now0 : datetime) (t0 : Q) (ticks more : list tick)
    (w0 : world) (l : locals) (w w' : world) :
  log_orientation now0 t0 ticks w0 = Ret l w ->
  final_world (log_orientation now0 t0 (ticks ++ more) w0) = Some w' ->
  exists added,
    file_rows w' = (file_rows w ++ added)%list /\
    (List.length added <= List.length more)%nat /\
    List.length (hat_log w')
    = (List.length (hat_log w) + 3 * List.length added)%nat.
Proof.
  rewrite !log_orientation_unfold.
  destruct (set_name w0) as [name w1|e w1|w1|]; try discriminate.
  destruct (select_mode_outcome w1)
    as [(m & w2 & E & Hm & _)|[(e & w2 & E & _)|(w2 & E & _)]];
    rewrite E; try discriminate.
  destruct (open_error w2 (file_path name now0)); [discriminate|].
  set (w4 := set_log_file _ w2). set (l0 := mkLocals name m t0).
  rewrite loop_app. unfold bind.
  destruct (loop ticks l0 w4) as [l1 w5|e w5|w5|] eqn:El; try discriminate.
  intros H; injection H as -> ->. intros H.
  assert (Hf4 : file_open w4) by (eexists; split; reflexivity).
  destruct (loop_inv ticks l0 w4 l w Hm Hf4 El) as (Hml & (f & Hf & Hc)).
  pose proof (loop_trace_world more l w f Hml Hf Hc) as Ht.
  assert (Hlen : forall picks : list (tick * string),
             List.length (flat_map hat_calls picks)
             = (3 * List.length picks)%nat).
  { induction picks as [|p ps IH]; [reflexivity|]. cbn in *. lia. }
  destruct (loop more l w) as [l2 w6|e w6|w6|] eqn:Em; try discriminate;
    injection H as <-;
    destruct (Ht w6 eq_refl) as (picks & Hsub & _ & Hr & Hh & _);
    exists (map (row_of l) picks);
    (split;
     [|split;
       [rewrite length_map, <- (length_map fst picks);
        now apply subseq_length|]]).
  - unfold file_rows. now rewrite Hr, Hf.
  - now rewrite Hh, length_app, Hlen, length_map.
  - unfold close_log, file_rows. rewrite Hr, Hf. reflexivity.
  - unfold close_log. rewrite Hr. cbn.
    now rewrite Hh, length_app, Hlen, length_map.
  - unfold file_rows. now rewrite Hr, Hf.
  - now rewrite Hh, length_app, Hlen, length_map.
Qed.

Lemma rows_stay_witness :
  let d := mkDatetime 2024 3 7 9 5 1 in
  let tk := mkTick 0 (mkOrientation 1 2 3) (mkAcceleration 0 0 1) 4 d in
  let tk' := mkTick 1 (mkOrientation 1 2 3) (mkAcceleration 0 0 1) 5 d in
  exists w l w' added,
    log_orientation d 0 [tk] (initial ["Alice"; "y"; "2"; "7"] []) = Ret l w /\
    final_world (log_orientation d 0 ([tk] ++ [tk'; tk])
                                 (initial ["Alice"; "y"; "2"; "7"] []))
    = Some w' /\
    file_rows w' = (file_rows w ++ added)%list /\
    (List.length added <= 2)%nat.
Proof.
  intros d tk tk'.
  set (r1 := log_orientation d 0 [tk] _).
  set (r2 := log_orientation d 0 ([tk] ++ [tk'; tk]) _).
  assert (H1 : exists l w, r1 = Ret l w)
    by (eexists; eexists; vm_compute; reflexivity).
  assert (H2 : exists w', final_world r2 = Some w')
    by (eexists; vm_compute; reflexivity).
  destruct H1 as (l & w & H1). destruct H2 as (w' & H2).
  destruct (rows_stay d 0 [tk] [tk'; tk] _ l w w' H1 H2)
    as (added & Hr & Hl & _).
  exists w, l, w', added. now repeat split.
Defined.
